(** * Sarek: code-analysis cache, metric extractor, conversation store
      and achievement counters

    A shallow embedding of [sarek/features/code_analyzer.py],
    [sarek/core/database.py] and the legacy [sarek.py] analyzer, with the
    properties of the specification stated over it, followed by the
    prompt assembly of [sarek/core/ai_interface.py], the directory batch
    of [sarek/main.py] and further properties of the code.

    Conventions.
    - A Python [str] is a Rocq [string] holding its UTF-8 encoding; every
      needle the program searches for is ASCII, so substring tests on the
      encoding and on the code points agree.
    - File contents are [list byte]; the digest is MD5 (RFC 1321) written
      out on [Z] with explicit wrap-around at 2^32.
    - Library facilities the program calls but does not define
      ([ast.parse], [re.search], [re.findall], [json.dumps]/[json.loads])
      are Section variables.
    - The SQLite tables are explicit state: lists of rows where order or
      duplicates matter, [gmap]s keyed by the primary key otherwise.
      [CURRENT_TIMESTAMP] is an explicit argument [now].
    - A call that can raise an exception which the program does not
      catch has an [outcome]: the value it returns or the exception it
      raises; a call that also writes gives the state after it with
      either outcome.  A Python [int] bound to a statement must be
      within the signed 64-bit range of an SQLite INTEGER. *)

From Stdlib Require Import ZArith QArith Strings.Byte Ascii String List Lia Permutation Sorted.
From Equations Require Import Equations.
From stdpp Require Import gmap strings list sorting.

#[local] Set Warnings "-register-all".

Local Open Scope string_scope.
Local Open Scope Z_scope.

(* ===================================================================== *)
(** ** Python string primitives *)
(* ===================================================================== *)

Module Text.

Definition code (c : ascii) : N := N_of_ascii c.

(** [str.lower] restricted to what the program can observe: ASCII
    letters.  The only non-ASCII code points whose lower-casing yields
    an ASCII letter are U+0130 (giving "i" followed by U+0307) and
    U+212A (giving "k"); neither can complete one of the needles
    "todo", "fixme" or "debug". *)
Definition lower_char (c : ascii) : ascii :=
  if ((65 <=? code c) && (code c <=? 90))%N
  then ascii_of_N (code c + 32) else c.

Fixpoint lower (s : string) : string :=
  match s with
  | EmptyString => EmptyString
  | String c r => String (lower_char c) (lower r)
  end.

(** [s.startswith(p)]. *)
Fixpoint startswith (p s : string) : bool :=
  match p, s with
  | EmptyString, _ => true
  | String a p', String b s' => if ascii_dec a b then startswith p' s' else false
  | String _ _, EmptyString => false
  end.

(** [needle in hay]. *)
Fixpoint contains (needle hay : string) : bool :=
  startswith needle hay ||
  match hay with
  | EmptyString => false
  | String _ r => contains needle r
  end.

(** [hay.count(needle)] for a non-empty needle: occurrences are counted
    left to right without overlap; [skip] is the number of characters
    still covered by the previous match. *)
Fixpoint count_from (needle hay : string) (skip : nat) : nat :=
  match hay with
  | EmptyString => 0%nat
  | String _ r =>
      match skip with
      | S k => count_from needle r k
      | O => if startswith needle hay
             then S (count_from needle r (String.length needle - 1))
             else count_from needle r 0
      end
  end.

Definition count (needle hay : string) : nat := count_from needle hay 0.

(** Length in bytes of the line boundary at the head of [s], if any:
    \n \r \v \f \x1c \x1d \x1e, \r\n, U+0085, U+2028, U+2029. *)
Definition line_break (s : string) : option nat :=
  match s with
  | String c r =>
      let n := code c in
      if (n =? 13)%N then
        match r with
        | String d _ => if (code d =? 10)%N then Some 2%nat else Some 1%nat
        | EmptyString => Some 1%nat
        end
      else if ((n =? 10) || (n =? 11) || (n =? 12)
               || (n =? 28) || (n =? 29) || (n =? 30))%N then Some 1%nat
      else if (n =? 194)%N then
        match r with
        | String d _ => if (code d =? 133)%N then Some 2%nat else None
        | EmptyString => None
        end
      else if (n =? 226)%N then
        match r with
        | String d (String e _) =>
            if ((code d =? 128) && ((code e =? 168) || (code e =? 169)))%N
            then Some 3%nat else None
        | _ => None
        end
      else None
  | EmptyString => None
  end.

(** [s.splitlines()]: [cur] is the current line in reverse, [skip] the
    bytes of a multi-byte boundary still to be dropped. *)
Fixpoint splitlines_from (s : string) (cur : list ascii) (skip : nat) : list string :=
  match s with
  | EmptyString =>
      match cur with
      | [] => []
      | _ => [string_of_list_ascii (rev cur)]
      end
  | String c r =>
      match skip with
      | S k => splitlines_from r cur k
      | O =>
          match line_break s with
          | Some n => string_of_list_ascii (rev cur) :: splitlines_from r [] (n - 1)
          | None => splitlines_from r (c :: cur) 0
          end
      end
  end.

Definition splitlines (s : string) : list string := splitlines_from s [] 0.

(** Length in bytes of the white-space character ([str.isspace]) at the
    head of [s], if any: U+0009..U+000D, U+001C..U+0020, U+0085, U+00A0,
    U+1680, U+2000..U+200A, U+2028, U+2029, U+202F, U+205F, U+3000. *)
Definition space_at (s : string) : option nat :=
  match s with
  | String c r =>
      let n := code c in
      if (((9 <=? n) && (n <=? 13)) || ((28 <=? n) && (n <=? 32)))%N then Some 1%nat
      else if (n =? 194)%N then
        match r with
        | String d _ =>
            if ((code d =? 133) || (code d =? 160))%N then Some 2%nat else None
        | EmptyString => None
        end
      else if (n =? 225)%N then
        match r with
        | String d (String e _) =>
            if ((code d =? 154) && (code e =? 128))%N then Some 3%nat else None
        | _ => None
        end
      else if (n =? 226)%N then
        match r with
        | String d (String e _) =>
            if (((code d =? 128)
                 && (((128 <=? code e) && (code e <=? 138))
                     || (code e =? 168) || (code e =? 169) || (code e =? 175)))
                || ((code d =? 129) && (code e =? 159)))%N
            then Some 3%nat else None
        | _ => None
        end
      else if (n =? 227)%N then
        match r with
        | String d (String e _) =>
            if ((code d =? 128) && (code e =? 128))%N then Some 3%nat else None
        | _ => None
        end
      else None
  | EmptyString => None
  end.

(** [s.lstrip()]. *)
Fixpoint lstrip_from (s : string) (skip : nat) : string :=
  match s with
  | EmptyString => EmptyString
  | String _ r =>
      match skip with
      | S k => lstrip_from r k
      | O =>
          match space_at s with
          | Some n => lstrip_from r (n - 1)
          | None => s
          end
      end
  end.

Definition lstrip (s : string) : string := lstrip_from s 0.

(** Truth value of [line.strip()]: some character is not white space. *)
Definition strip_nonempty (line : string) : bool :=
  match lstrip line with
  | EmptyString => false
  | String _ _ => true
  end.

(** [line.strip().startswith(p)] for a [p] that starts with a
    non-space character: stripping on the right cannot remove it. *)
Definition strip_startswith (p line : string) : bool := startswith p (lstrip line).

Definition quote : string := String (ascii_of_N 34) EmptyString.
Definition newline : string := String (ascii_of_N 10) EmptyString.

End Text.


(* ===================================================================== *)
(** ** Reading files: bytes, UTF-8 decoding, MD5 digest *)
(* ===================================================================== *)

Module Codec.

Definition bval (b : byte) : N := Byte.to_N b.

Definition is_cont (b : byte) : bool := ((128 <=? bval b) && (bval b <=? 191))%N.

(** Range allowed for the second byte of a sequence that starts with
    [b0] (excludes over-long forms, surrogates and values above
    U+10FFFF). *)
Definition second_ok (b0 b1 : byte) : bool :=
  let n0 := bval b0 in
  let n1 := bval b1 in
  (if n0 =? 224 then (160 <=? n1) && (n1 <=? 191)
   else if n0 =? 237 then (128 <=? n1) && (n1 <=? 159)
   else if n0 =? 240 then (144 <=? n1) && (n1 <=? 191)
   else if n0 =? 244 then (128 <=? n1) && (n1 <=? 143)
   else (128 <=? n1) && (n1 <=? 191))%N.

Definition to_ascii (b : byte) : ascii := ascii_of_byte b.

(** [bytes.decode('utf-8', errors='ignore')], as done by
    [open(path, 'r', encoding='utf-8', errors='ignore')]: well-formed
    sequences are kept, the bytes of an ill-formed one are dropped.
    [keep] counts the continuation bytes of an accepted sequence that
    are still to be copied. *)
Fixpoint decode_from (bs : list byte) (keep : nat) : string :=
  match bs with
  | [] => EmptyString
  | b0 :: r =>
      match keep with
      | S k => String (to_ascii b0) (decode_from r k)
      | O =>
          let n0 := bval b0 in
          if (n0 <? 128)%N then String (to_ascii b0) (decode_from r 0)
          else if ((194 <=? n0) && (n0 <=? 223))%N then
            match r with
            | b1 :: _ =>
                if is_cont b1 then String (to_ascii b0) (decode_from r 1)
                else decode_from r 0
            | [] => EmptyString
            end
          else if ((224 <=? n0) && (n0 <=? 239))%N then
            match r with
            | b1 :: b2 :: _ =>
                if second_ok b0 b1 && is_cont b2
                then String (to_ascii b0) (decode_from r 2)
                else if second_ok b0 b1 then skip_then r 1
                else decode_from r 0
            | [b1] => if second_ok b0 b1 then EmptyString else decode_from r 0
            | [] => EmptyString
            end
          else if ((240 <=? n0) && (n0 <=? 244))%N then
            match r with
            | b1 :: b2 :: b3 :: _ =>
                if second_ok b0 b1 && is_cont b2 && is_cont b3
                then String (to_ascii b0) (decode_from r 3)
                else if second_ok b0 b1 && is_cont b2 then skip_then r 2
                else if second_ok b0 b1 then skip_then r 1
                else decode_from r 0
            | [b1; b2] =>
                if second_ok b0 b1 && is_cont b2 then EmptyString
                else if second_ok b0 b1 then skip_then r 1
                else decode_from r 0
            | [b1] => if second_ok b0 b1 then EmptyString else decode_from r 0
            | [] => EmptyString
            end
          else decode_from r 0
      end
  end
with skip_then (bs : list byte) (n : nat) : string :=
  match bs with
  | [] => EmptyString
  | _ :: r =>
      match n with
      | S (S k) => skip_then r (S k)
      | _ => decode_from r 0
      end
  end.

Definition decode_utf8_ignore (bs : list byte) : string := decode_from bs 0.

(** The bytes of a text (its UTF-8 encoding), for writing file contents. *)
Definition encode (s : string) : list byte := list_byte_of_string s.

End Codec.

Module MD5.

Definition wrap (x : Z) : Z := x mod 4294967296.
Definition add32 (x y : Z) : Z := wrap (x + y).
Definition not32 (x : Z) : Z := Z.lxor x 4294967295.
Definition rotl32 (x c : Z) : Z :=
  Z.lor (wrap (Z.shiftl x c)) (Z.shiftr x (32 - c)).

Definition shifts : list Z :=
  [7; 12; 17; 22; 7; 12; 17; 22; 7; 12; 17; 22; 7; 12; 17; 22;
   5; 9; 14; 20; 5; 9; 14; 20; 5; 9; 14; 20; 5; 9; 14; 20;
   4; 11; 16; 23; 4; 11; 16; 23; 4; 11; 16; 23; 4; 11; 16; 23;
   6; 10; 15; 21; 6; 10; 15; 21; 6; 10; 15; 21; 6; 10; 15; 21].

(** [floor (2^32 * |sin (i + 1)|)] for i = 0..63. *)
Definition sines : list Z :=
  [3614090360; 3905402710; 606105819; 3250441966; 4118548399; 1200080426;
   2821735955; 4249261313; 1770035416; 2336552879; 4294925233; 2304563134;
   1804603682; 4254626195; 2792965006; 1236535329; 4129170786; 3225465664;
   643717713; 3921069994; 3593408605; 38016083; 3634488961; 3889429448;
   568446438; 3275163606; 4107603335; 1163531501; 2850285829; 4243563512;
   1735328473; 2368359562; 4294588738; 2272392833; 1839030562; 4259657740;
   2763975236; 1272893353; 4139469664; 3200236656; 681279174; 3936430074;
   3572445317; 76029189; 3654602809; 3873151461; 530742520; 3299628645;
   4096336452; 1126891415; 2878612391; 4237533241; 1700485571; 2399980690;
   4293915773; 2240044497; 1873313359; 4264355552; 2734768916; 1309151649;
   4149444226; 3174756917; 718787259; 3951481745].

Record state := State { sa : Z; sb : Z; sc : Z; sd : Z }.

Definition init : state := State 1732584193 4023233417 2562383102 271733878.

(** Message padding: 0x80, zeros up to 56 mod 64, then the bit length
    as a 64-bit little-endian integer. *)
Definition le_bytes (n : nat) (x : Z) : list Z :=
  map (fun i => Z.shiftr x (8 * Z.of_nat i) mod 256) (seq 0 n).

Definition pad (msg : list Z) : list Z :=
  let len := Z.of_nat (length msg) in
  let zeros := Z.to_nat ((55 - len) mod 64) in
  msg ++ [128] ++ repeat 0 zeros ++ le_bytes 8 ((8 * len) mod 2 ^ 64).

Fixpoint le_word (bs : list Z) : Z :=
  match bs with
  | [] => 0
  | b :: r => b + 256 * le_word r
  end.

(** The sixteen little-endian words of a 64-byte block. *)
Definition words (block : list Z) : list Z :=
  map (fun i => le_word (firstn 4 (skipn (4 * i) block))) (seq 0 16).

Definition round (m : list Z) (st : state) (i : nat) : state :=
  let '(State a b c d) := st in
  let zi := Z.of_nat i in
  let '(f, g) :=
    if (i <? 16)%nat then (Z.lor (Z.land b c) (Z.land (not32 b) d), zi)
    else if (i <? 32)%nat then (Z.lor (Z.land d b) (Z.land (not32 d) c), (5 * zi + 1) mod 16)
    else if (i <? 48)%nat then (Z.lxor (Z.lxor b c) d, (3 * zi + 5) mod 16)
    else (Z.lxor c (Z.lor b (not32 d)), (7 * zi) mod 16) in
  let f' := add32 (add32 (add32 f a) (nth i sines 0)) (nth (Z.to_nat g) m 0) in
  State d (add32 b (rotl32 f' (nth i shifts 0))) b c.

Definition compress (st : state) (block : list Z) : state :=
  let '(State a b c d) := fold_left (round (words block)) (seq 0 64) st in
  State (add32 (sa st) a) (add32 (sb st) b) (add32 (sc st) c) (add32 (sd st) d).

Fixpoint blocks (n : nat) (bs : list Z) : list (list Z) :=
  match n with
  | O => []
  | S k => firstn 64 bs :: blocks k (skipn 64 bs)
  end.

Definition digest_state (msg : list Z) : state :=
  let p := pad msg in
  fold_left compress (blocks (length p / 64) p) init.

Definition hex_digit (n : Z) : ascii :=
  if n <? 10 then ascii_of_N (Z.to_N (48 + n)) else ascii_of_N (Z.to_N (87 + n)).

Definition hex_byte (b : Z) (rest : string) : string :=
  String (hex_digit (b / 16)) (String (hex_digit (b mod 16)) rest).

Definition hex_word (w : Z) (rest : string) : string :=
  hex_byte (w mod 256)
    (hex_byte (Z.shiftr w 8 mod 256)
       (hex_byte (Z.shiftr w 16 mod 256)
          (hex_byte (Z.shiftr w 24 mod 256) rest))).

(** [hashlib.md5(data).hexdigest()]. *)
Definition hexdigest (data : list byte) : string :=
  let '(State a b c d) := digest_state (map (fun b => Z.of_N (Byte.to_N b)) data) in
  hex_word a (hex_word b (hex_word c (hex_word d EmptyString))).



End MD5.


(* ===================================================================== *)
(** ** Syntax trees ([ast]) *)
(* ===================================================================== *)

Module Ast.

(** The node classes the analyzer tests with [isinstance]; every other
    class of the [ast] module (among them [AsyncFunctionDef], [AsyncFor],
    [AsyncWith], [IfExp], [alias]) is [Other]. *)
Inductive node_class : Type :=
| FunctionDef (name : string)
| ClassDef (name : string)
| Import (names : list string)
| ImportFrom (module : option string) (names : list string)
| If
| For
| While
| Try
| With
| Other.

Inductive ast : Type :=
| Node (cls : node_class) (children : list ast).

Definition cls_of (t : ast) : node_class := let 'Node c _ := t in c.
Definition children_of (t : ast) : list ast := let 'Node _ cs := t in cs.

Fixpoint size (t : ast) : nat :=
  match t with
  | Node _ cs => S (list_sum (List.map size cs))
  end.

Definition forest_size (ts : list ast) : nat := list_sum (List.map size ts).

(** [ast.walk]: a queue of pending nodes; the head is yielded and its
    children are appended at the back (breadth first). *)
Equations? walk_queue (todo : list ast) : list ast by wf (forest_size todo) lt :=
  walk_queue [] := [];
  walk_queue (Node c cs :: rest) := Node c cs :: walk_queue (rest ++ cs).
Proof.
  unfold forest_size. rewrite List.map_app, list_sum_app. simpl. lia.
Qed.

Definition walk (t : ast) : list ast := walk_queue [t].

(** The nodes of a tree by structural recursion (pre-order), used to
    state properties independently of the traversal order. *)
Fixpoint subtrees (t : ast) : list ast :=
  match t with
  | Node c cs => Node c cs :: flat_map subtrees cs
  end.

End Ast.

(* ===================================================================== *)
(** ** Data models ([sarek/core/data_models.py], [sarek/constants.py]) *)
(* ===================================================================== *)

(** [complexity_score] is the quotient of two Python integers; it is kept
    as the exact rational, of which the Python float is the rounding. *)
Record CodeAnalysis := {
  file_path : string;
  language : string;
  lines_of_code : nat;
  complexity_score : Q;
  functions : list string;
  classes : list string;
  imports : list string;
  issues : list string;
  security_issues : option (list string)
}.


Definition SUPPORTED_EXTENSIONS : list (string * string) :=
  [(".py", "python"); (".js", "javascript"); (".jsx", "javascript");
   (".ts", "typescript"); (".tsx", "typescript"); (".php", "php");
   (".java", "java"); (".cpp", "cpp"); (".c", "c"); (".go", "go");
   (".rs", "rust"); (".rb", "ruby"); (".sh", "bash"); (".sql", "sql")].

(** [d.get(key, default)] on a dict written as its item list. *)
Fixpoint dict_get (d : list (string * string)) (key default : string) : string :=
  match d with
  | [] => default
  | (k, v) :: r => if String.eqb k key then v else dict_get r key default
  end.

(** [Path(p).name]: the last component of a path that does not end in a
    separator (a path that names a readable file). *)
Fixpoint path_name_from (p cur : string) : string :=
  match p with
  | EmptyString => cur
  | String c r => if Ascii.eqb c "/" then path_name_from r r else path_name_from r cur
  end.

Definition path_name (p : string) : string := path_name_from p p.

(** [name.rfind('.')]: the suffix of [s] that starts at its last dot. *)
Fixpoint last_dot (s : string) : option string :=
  match s with
  | EmptyString => None
  | String c r =>
      match last_dot r with
      | Some t => Some t
      | None => if Ascii.eqb c "." then Some s else None
      end
  end.

(** [Path(p).suffix]: from the last dot of the name, unless that dot is
    the first or the last character of the name. *)
Definition path_suffix (p : string) : string :=
  let name := path_name p in
  match last_dot name with
  | Some t =>
      if (String.length t =? String.length name)%nat then EmptyString
      else if (String.length t =? 1)%nat then EmptyString
      else t
  | None => EmptyString
  end.

(** What a call does: it returns a value, or raises an exception that
    the program does not catch, named by its text. *)
Inductive outcome (A : Type) : Type :=
| Returns (a : A)
| Raises (e : string).

Arguments Returns {A} a.
Arguments Raises {A} e.

(** Outcome of [ast.parse(content)]: a tree, [SyntaxError] with the text
    of the exception, or another exception ([ValueError] for a source
    that holds a null byte in CPython 3.11 and earlier, [RecursionError],
    [MemoryError]). *)
Inductive parse_result : Type :=
| Parsed (tree : Ast.ast)
| SyntaxError (msg : string)
| Raised (e : string).

(** The range of the integers that the [sqlite3] module binds to a
    parameter: signed 64-bit; outside it the call raises [OverflowError]
    and the statement is not run. *)
Definition int64 (n : Z) : bool := (- 2 ^ 63 <=? n) && (n <? 2 ^ 63).

Definition OverflowError : string :=
  "OverflowError: Python int too large to convert to SQLite INTEGER".

(** The files visible to the process: a path is absent, or names an
    entry that [open] reads or fails on with the given error text. *)
Inductive file_entry : Type :=
| Regular (data : list byte)
| Unreadable (err : string).

(** [open(path, 'rb').read()], with the text of the exception on
    failure. *)
Definition read_bytes (fs : gmap string file_entry) (path : string) : string + list byte :=
  match fs !! path with
  | Some (Regular data) => inr data
  | Some (Unreadable err) => inl err
  | None => inl ("[Errno 2] No such file or directory: '" ++ path ++ "'")
  end.

(** [open(path, 'r', encoding='utf-8', errors='ignore').read()]. *)
Definition read_text (fs : gmap string file_entry) (path : string) : string + string :=
  match read_bytes fs path with
  | inr data => inr (Codec.decode_utf8_ignore data)
  | inl err => inl err
  end.

(** [os.path.exists]. *)
Definition path_exists (fs : gmap string file_entry) (path : string) : bool :=
  match fs !! path with
  | Some _ => true
  | None => false
  end.

(* ===================================================================== *)
(** ** The persistent store ([sarek/core/database.py]) *)
(* ===================================================================== *)

Record conversation_row := {
  c_id : Z;
  c_session_name : string;
  c_timestamp : Z;
  c_user_input : string;
  c_ai_response : string;
  c_context_used : string;
  c_model_used : string
}.

Record session_row := {
  s_created_at : Z;
  s_last_used : Z;
  s_description : option string;
  s_mood : option string
}.

Record achievement_row := {
  a_description : string;
  a_unlocked : bool;
  a_progress : Z;
  a_target : Z;
  a_unlocked_at : option Z
}.

(* ===================================================================== *)
(** ** Sample inputs *)
(* ===================================================================== *)

Module Sample.

(** Two functions, the first with three conditionals, the second with
    one loop. *)
Definition tree : Ast.ast :=
  Ast.Node Ast.Other
    [Ast.Node (Ast.FunctionDef "a")
       [Ast.Node Ast.If []; Ast.Node Ast.If [Ast.Node Ast.Other []]; Ast.Node Ast.If []];
     Ast.Node (Ast.FunctionDef "b")
       [Ast.Node Ast.For [Ast.Node Ast.Other []]]].

Definition calc_source : string :=
  "def a(x):" ++ Text.newline ++
  "    if x > 0: print(x)" ++ Text.newline ++
  "    if x > 1: x = 1" ++ Text.newline ++
  "    if x > 2: x = 2" ++ Text.newline ++
  "def b(ys):" ++ Text.newline ++
  "    for y in ys: a(y)" ++ Text.newline.

Definition broken_source : string :=
  "def f(:" ++ Text.newline ++ Text.newline ++ "# note".

(** A source with a null byte. *)
Definition nul_source : string :=
  "x = 1" ++ String (ascii_of_N 0) EmptyString ++ Text.newline.

(** A stand-in for [ast.parse] on the sample sources; a null byte is
    answered as CPython 3.11 does. *)
Definition parse (content : string) : parse_result :=
  if Text.contains (String (ascii_of_N 0) EmptyString) content
  then Raised "ValueError: source code string cannot contain null bytes"
  else if Text.startswith "def f(:" content
  then SyntaxError "invalid syntax (<unknown>, line 1)"
  else Parsed tree.

(** Stand-ins for [re.search] and [re.findall]: nothing matches. *)
Definition search (pattern content : string) : bool := false.
Definition findall (pattern content : string) : list string := [].

Definition files : gmap string file_entry :=
  <["calc.py" := Regular (Codec.encode calc_source)]>
    (<["broken.py" := Regular (Codec.encode broken_source)]>
       (<["nul.py" := Regular (Codec.encode nul_source)]>
          {[ "notes.txt" := Regular (Codec.encode "hello world") ]})).



End Sample.

(** The [Achievement] dataclass. *)
Module Achievement.
Record t := {
  name : string;
  description : string;
  unlocked : bool;
  progress : Z;
  target : Z
}.
End Achievement.


Section Sarek.

(** Library facilities used by the program. *)
Variable ast_parse : string -> parse_result.
(** [re.search(pattern, content, re.IGNORECASE)] found a match. *)
Variable re_search : string -> string -> bool.
(** [re.findall(pattern, content)] for a pattern with one group. *)
Variable re_findall : string -> string -> list string.
(** The serialized text of an analysis: [json.dumps(a.__dict__)], and
    the [CodeAnalysis] built from [json.loads(text)], [None] for any
    exception. *)
Variable json : Type.
Variable json_dumps : CodeAnalysis -> json.
Variable json_loads : json -> option CodeAnalysis.

Record code_analysis_row := {
  r_id : Z;
  r_file_path : string;
  r_file_hash : string;
  r_language : string;
  r_lines_of_code : nat;
  r_complexity_score : Q;
  r_analysis_data : json;
  r_timestamp : Z
}.

(** The database file: one field per table, rows of [conversations] and
    [code_analysis] in rowid order with their AUTOINCREMENT counters. *)
Record db := {
  conversations : list conversation_row;
  conversations_seq : Z;
  code_analysis : list code_analysis_row;
  code_analysis_seq : Z;
  sessions : gmap string session_row;
  achievements : gmap string achievement_row
}.

(** [init_db] on a fresh file: every table empty. *)
Definition init_db : db :=
  {| conversations := []; conversations_seq := 0;
     code_analysis := []; code_analysis_seq := 0;
     sessions := ∅; achievements := ∅ |}.

(** *** Achievements *)

(** [INSERT OR IGNORE INTO achievements (name, target, description)]:
    the other columns take their defaults.  [target] is a value that
    the binding accepted, see [increment_achievement]. *)
Definition insert_or_ignore_achievement
    (t : gmap string achievement_row) (name : string) (target : Z)
    : gmap string achievement_row :=
  match t !! name with
  | Some _ => t
  | None =>
      <[name := {| a_description := "Achievement: " ++ name;
                   a_unlocked := false; a_progress := 0;
                   a_target := target; a_unlocked_at := None |}]> t
  end.

(** [UPDATE achievements SET progress = progress + 1
     WHERE name = ? AND unlocked = FALSE].  The counter starts at 0 and
    this statement alone moves it, by one: the sum is taken as the
    integer sum, which it is below 2^63 - 1. *)
Definition update_progress
    (t : gmap string achievement_row) (name : string)
    : gmap string achievement_row :=
  match t !! name with
  | Some r =>
      if a_unlocked r then t
      else <[name := {| a_description := a_description r;
                        a_unlocked := a_unlocked r;
                        a_progress := a_progress r + 1;
                        a_target := a_target r;
                        a_unlocked_at := a_unlocked_at r |}]> t
  | None => t
  end.

(** [SELECT progress FROM achievements
     WHERE name = ? AND progress >= target AND unlocked = FALSE],
    then [fetchone()]. *)
Definition select_reached
    (t : gmap string achievement_row) (name : string) : option Z :=
  match t !! name with
  | Some r =>
      if (a_target r <=? a_progress r) && negb (a_unlocked r)
      then Some (a_progress r) else None
  | None => None
  end.

(** [UPDATE achievements SET unlocked = TRUE,
     unlocked_at = CURRENT_TIMESTAMP WHERE name = ?]. *)
Definition update_unlocked
    (t : gmap string achievement_row) (name : string) (now : Z)
    : gmap string achievement_row :=
  match t !! name with
  | Some r =>
      <[name := {| a_description := a_description r;
                   a_unlocked := true;
                   a_progress := a_progress r;
                   a_target := a_target r;
                   a_unlocked_at := Some now |}]> t
  | None => t
  end.

Definition increment_achievement_table
    (t : gmap string achievement_row) (name : string) (target now : Z)
    : gmap string achievement_row :=
  let t1 := insert_or_ignore_achievement t name target in
  let t2 := update_progress t1 name in
  match select_reached t2 name with
  | Some _ => update_unlocked t2 name now
  | None => t2
  end.

Definition with_achievements (d : db) (t : gmap string achievement_row) : db :=
  {| conversations := conversations d; conversations_seq := conversations_seq d;
     code_analysis := code_analysis d; code_analysis_seq := code_analysis_seq d;
     sessions := sessions d; achievements := t |}.

(** [increment_achievement]: the result of the call and the database
    after it.  The target is bound to the first statement: outside the
    range of the binding the call raises before any statement runs;
    within it the three statements run on the [achievements] table. *)
Definition increment_achievement (d : db) (name : string) (target now : Z)
    : outcome unit * db :=
  if int64 target
  then (Returns tt,
        with_achievements d
          (increment_achievement_table (achievements d) name target now))
  else (Raises OverflowError, d).

Definition achievements_to_check (action_type : string) : list (string * Z) :=
  if String.eqb action_type "conversation" then [("chat_master", 100); ("session_expert", 10)]
  else if String.eqb action_type "code_analysis" then [("code_analyzer", 50); ("quality_guru", 25)]
  else if String.eqb action_type "git_usage" then [("git_ninja", 25); ("commit_master", 50)]
  else if String.eqb action_type "learning" then [("knowledge_seeker", 20); ("concept_master", 100)]
  else [].

(** [update_achievements]: one [increment_achievement] per entry, each
    on the database that the call before left.  The targets of the table
    are all within the range of the binding, so no call raises and the
    loop runs to its end. *)
Definition update_achievements (d : db) (action_type : string) (now : Z) : db :=
  fold_left (fun acc '(name, target) => snd (increment_achievement acc name target now))
            (achievements_to_check action_type) d.

(** *** Conversations and sessions *)

(** [INSERT INTO conversations (...)] followed by
    [INSERT OR REPLACE INTO sessions (name, last_used)]: the conflicting
    session row is deleted and the new row takes the column defaults
    ([created_at] CURRENT_TIMESTAMP, [description] NULL, [mood]
    'neutral'); then [update_achievements('conversation')]. *)
Definition save_conversation
    (d : db) (session user ai context model : string) (now : Z) : db :=
  let row := {| c_id := conversations_seq d + 1; c_session_name := session;
                c_timestamp := now; c_user_input := user;
                c_ai_response := ai; c_context_used := context;
                c_model_used := model |} in
  let srow := {| s_created_at := now; s_last_used := now;
                 s_description := None; s_mood := Some "neutral" |} in
  let d1 := {| conversations := conversations d ++ [row];
               conversations_seq := conversations_seq d + 1;
               code_analysis := code_analysis d;
               code_analysis_seq := code_analysis_seq d;
               sessions := <[session := srow]> (delete session (sessions d));
               achievements := achievements d |} in
  update_achievements d1 "conversation" now.







Definition in_session (session : string) (r : conversation_row) : bool :=
  String.eqb (c_session_name r) session.


(** *** Metric extraction ([sarek/features/code_analyzer.py]) *)

Definition is_decision (n : Ast.ast) : bool :=
  match Ast.cls_of n with
  | Ast.If | Ast.For | Ast.While | Ast.Try | Ast.With => true
  | _ => false
  end.

(** The four accumulators of the loop over [ast.walk(tree)]. *)
Record walk_state := {
  w_functions : list string;
  w_classes : list string;
  w_imports : list string;
  w_complexity : nat
}.

(** One iteration of [for node in ast.walk(tree)]. *)
Definition visit (st : walk_state) (node : Ast.ast) : walk_state :=
  match Ast.cls_of node with
  | Ast.FunctionDef name =>
      {| w_functions := w_functions st ++ [name];
         w_classes := w_classes st;
         w_imports := w_imports st;
         w_complexity :=
           (w_complexity st + length (List.filter is_decision (Ast.walk node)))%nat |}
  | Ast.ClassDef name =>
      {| w_functions := w_functions st;
         w_classes := w_classes st ++ [name];
         w_imports := w_imports st;
         w_complexity := w_complexity st |}
  | Ast.Import names =>
      {| w_functions := w_functions st;
         w_classes := w_classes st;
         w_imports := w_imports st ++ names;
         w_complexity := w_complexity st |}
  | Ast.ImportFrom module names =>
      let m := match module with Some m => m | None => "" end in
      {| w_functions := w_functions st;
         w_classes := w_classes st;
         w_imports := w_imports st ++ List.map (fun a => m ++ "." ++ a) names;
         w_complexity := w_complexity st |}
  | _ => st
  end.

Definition walk_tree (tree : Ast.ast) : walk_state :=
  fold_left visit (Ast.walk tree)
    {| w_functions := []; w_classes := []; w_imports := []; w_complexity := 0 |}.

Definition python_security_patterns : list (string * string) :=
  [("eval\s*\(", "🔴 Use of eval() - potential code injection");
   ("exec\s*\(", "🔴 Use of exec() - potential code execution");
   ("__import__\s*\(", "🟡 Dynamic imports - review for security");
   ("shell=True", "🔴 Shell injection risk in subprocess");
   ("sql.*%.*%", "🔴 Potential SQL injection");
   ("pickle\.loads?\(", "🟡 Pickle usage - ensure trusted data only")].

(** [for pattern, warning in patterns: if re.search(...): append]. *)
Definition scan (patterns : list (string * string)) (content : string) : list string :=
  List.map snd (List.filter (fun pw => re_search (fst pw) content) patterns).

(** [issues.append(x)] under a condition. *)
Definition append_if (c : bool) (x : string) (l : list string) : list string :=
  if c then l ++ [x] else l.

Definition issue_functions : string := "🔴 High function count - consider splitting into modules".
Definition issue_large : string := "🟡 Large file - consider refactoring".
Definition issue_complexity : string := "🔴 High complexity - simplify conditional logic".
Definition issue_classes : string := "🟡 Many classes - consider design patterns".
Definition issue_todo : string := "📝 Contains TODO/FIXME comments".
Definition issue_except : string := "⚠️ Bare except clauses - specify exception types".
Definition issue_print : string := "🟡 Print statements found - consider using logging".

(** [complexity / max(len(functions), 1)]. *)
Definition score (complexity nfunctions : nat) : Q :=
  Qmake (Z.of_nat complexity) (Pos.of_nat (Nat.max nfunctions 1)).

Definition error_analysis (path lang : string) (loc : nat) (issue : string) : CodeAnalysis :=
  {| file_path := path; language := lang; lines_of_code := loc;
     complexity_score := 0; functions := []; classes := []; imports := [];
     issues := [issue]; security_issues := Some [] |}.

(** [analyze_python_file]: [except Exception] around the read,
    [except SyntaxError] around [ast.parse]; any other exception of the
    parser leaves the function. *)
Definition analyze_python_file (fs : gmap string file_entry) (path : string)
    : outcome CodeAnalysis :=
  match read_text fs path with
  | inl e => Returns (error_analysis path "python" 0 ("File read error: " ++ e))
  | inr content =>
      match ast_parse content with
      | Raised e => Raises e
      | SyntaxError e =>
          Returns (error_analysis path "python" (length (Text.splitlines content))
                                  ("Syntax Error: " ++ e))
      | Parsed tree =>
          let st := walk_tree tree in
          let security := scan python_security_patterns content in
          let loc :=
            length (List.filter
                      (fun line => Text.strip_nonempty line
                                   && negb (Text.strip_startswith "#" line))
                      (Text.splitlines content)) in
          let complexity_score := score (w_complexity st) (length (w_functions st)) in
          let issues := [] in
          let issues := append_if (25 <? length (w_functions st))%nat issue_functions issues in
          let issues := append_if (1000 <? loc)%nat issue_large issues in
          let issues := append_if (negb (Qle_bool complexity_score 8)) issue_complexity issues in
          let issues := append_if (10 <? length (w_classes st))%nat issue_classes issues in
          let content_lower := Text.lower content in
          let issues := append_if (Text.contains "todo" content_lower
                                   || Text.contains "fixme" content_lower)
                                  issue_todo issues in
          let issues := append_if (0 <? Text.count "except:" content)%nat issue_except issues in
          let issues := append_if (Text.contains "print(" content
                                   && negb (Text.contains "debug" content_lower))
                                  issue_print issues in
          Returns
            {| file_path := path; language := "python"; lines_of_code := loc;
               complexity_score := complexity_score;
               functions := w_functions st; classes := w_classes st;
               imports := w_imports st; issues := issues;
               security_issues := Some security |}
      end
  end.

Definition js_security_patterns : list (string * string) :=
  [("eval\s*\(", "🔴 Use of eval() - code injection risk");
   ("innerHTML\s*=", "🟡 innerHTML usage - XSS risk");
   ("document\.write\s*\(", "🔴 document.write - XSS vulnerability");
   ("\.html\s*\(.*\$", "🟡 Potential XSS in jQuery html()")].

Definition php_security_patterns : list (string * string) :=
  [("\$_GET\[", "🟡 Direct $_GET usage - validate input");
   ("\$_POST\[", "🟡 Direct $_POST usage - validate input");
   ("eval\s*\(", "🔴 Use of eval() - code injection");
   ("exec\s*\(", "🔴 Use of exec() - command injection");
   ("mysql_query\s*\(", "🔴 Deprecated mysql_query - use PDO");
   ("md5\s*\(.*password", "🟡 MD5 for passwords - use stronger hashing")].

Definition js_import_pattern : string :=
  "import.*from\s+[\'" ++ Text.quote ++ "]([^\'" ++ Text.quote ++ "]+)[\'" ++ Text.quote ++ "]".

Definition analyze_generic_file
    (fs : gmap string file_entry) (path lang : string) : CodeAnalysis :=
  match read_text fs path with
  | inl e =>
      {| file_path := path; language := lang; lines_of_code := 0;
         complexity_score := 0; functions := []; classes := []; imports := [];
         issues := ["File read error: " ++ e]; security_issues := Some [] |}
  | inr content =>
      let lines := Text.splitlines content in
      let loc := length (List.filter Text.strip_nonempty lines) in
      let '(funs, clss, imps, security) :=
        if String.eqb lang "javascript" then
          ((re_findall "function\s+(\w+)" content
              ++ re_findall "(\w+)\s*:\s*function" content
              ++ re_findall "const\s+(\w+)\s*=\s*\(.*?\)\s*=>" content)%list,
           re_findall "class\s+(\w+)" content,
           re_findall js_import_pattern content,
           scan js_security_patterns content)
        else if String.eqb lang "php" then
          (re_findall "function\s+(\w+)" content,
           re_findall "class\s+(\w+)" content,
           [],
           scan php_security_patterns content)
        else ([], [], [], []) in
      let issues := [] in
      let issues := append_if (500 <? loc)%nat issue_large issues in
      let issues := append_if (0 <? Text.count "TODO" content + Text.count "FIXME" content)%nat
                              issue_todo issues in
      {| file_path := path; language := lang; lines_of_code := loc;
         complexity_score := 0; functions := funs; classes := clss;
         imports := imps; issues := issues; security_issues := Some security |}
  end.

(** The fallback of the legacy analyzer ([analyze_file] in [sarek.py])
    for a language classified as "unknown". *)
Definition issue_unknown : string := "❓ Unknown file type - limited analysis available".

Definition legacy_unknown_analysis (path content : string) : CodeAnalysis :=
  {| file_path := path; language := "unknown";
     lines_of_code := length (Text.splitlines content);
     complexity_score := 0; functions := []; classes := []; imports := [];
     issues := [issue_unknown]; security_issues := None |}.

(** *** The analysis cache *)

(** [get_file_hash]: the hex digest, or the empty string on any error. *)
Definition get_file_hash (fs : gmap string file_entry) (path : string) : string :=
  match read_bytes fs path with
  | inr data => MD5.hexdigest data
  | inl _ => ""
  end.

(** [SELECT analysis_data FROM code_analysis
     WHERE file_path = ? AND file_hash = ?], then [fetchone()]. *)
Definition select_cached (rows : list code_analysis_row) (path hash : string) : option json :=
  match List.filter (fun r => String.eqb (r_file_path r) path
                              && String.eqb (r_file_hash r) hash) rows with
  | r :: _ => Some (r_analysis_data r)
  | [] => None
  end.

(** [INSERT OR REPLACE INTO code_analysis (file_path, file_hash, language,
     lines_of_code, complexity_score, analysis_data)]: every row that
    conflicts on the UNIQUE [file_path] is deleted, then the new row is
    appended with the next AUTOINCREMENT id. *)
Definition store (d : db) (path hash : string) (a : CodeAnalysis) (now : Z) : db :=
  let row := {| r_id := code_analysis_seq d + 1; r_file_path := path;
                r_file_hash := hash; r_language := language a;
                r_lines_of_code := lines_of_code a;
                r_complexity_score := complexity_score a;
                r_analysis_data := json_dumps a; r_timestamp := now |} in
  {| conversations := conversations d; conversations_seq := conversations_seq d;
     code_analysis :=
       List.filter (fun r => negb (String.eqb (r_file_path r) path)) (code_analysis d)
         ++ [row];
     code_analysis_seq := code_analysis_seq d + 1;
     sessions := sessions d; achievements := achievements d |}.

(** The process state seen by the analyzer; [extractions] counts the
    analyses that the extractor has returned (ghost state, for stating
    cache hits). *)
Record world := {
  files : gmap string file_entry;
  database : db;
  extractions : nat
}.

Definition classify (path : string) : string :=
  dict_get SUPPORTED_EXTENSIONS (Text.lower (path_suffix path)) "unknown".

Definition extract (fs : gmap string file_entry) (path : string)
    : outcome CodeAnalysis :=
  let lang := classify path in
  if String.eqb lang "python" then analyze_python_file fs path
  else Returns (analyze_generic_file fs path lang).

(** [analyze_file_with_progress]: the result of the call and the state
    after it.  An exception of the extractor leaves the function before
    anything is written. *)
Definition analyze_file_with_progress (w : world) (path : string) (now : Z)
    : outcome (option CodeAnalysis) * world :=
  if negb (path_exists (files w) path) then (Returns None, w)
  else
    let file_hash := get_file_hash (files w) path in
    if String.eqb file_hash "" then (Returns None, w)
    else
      let miss :=
        match extract (files w) path with
        | Raises e => (Raises e, w)
        | Returns analysis =>
            let d1 := store (database w) path file_hash analysis now in
            let d2 := update_achievements d1 "code_analysis" now in
            (Returns (Some analysis),
             {| files := files w; database := d2; extractions := S (extractions w) |})
        end in
      match select_cached (code_analysis (database w)) path file_hash with
      | Some text =>
          match json_loads text with
          | Some cached => (Returns (Some cached), w)
          | None => miss
          end
      | None => miss
      end.

(** *** Notions used to state the properties *)

(** A sequence of cache writes, each [(path, digest, analysis, time)]. *)
Definition apply_stores (ops : list (string * string * CodeAnalysis * Z)) (d : db) : db :=
  fold_left (fun acc '(p, h, a, t) => store acc p h a t) ops d.

(** At most one row of [code_analysis] per [file_path]. *)
Definition unique_paths (d : db) : Prop :=
  NoDup (List.map r_file_path (code_analysis d)).

Definition rows_for (path : string) (d : db) : list code_analysis_row :=
  List.filter (fun r => String.eqb (r_file_path r) path) (code_analysis d).


(** [needle] occurs in [hay]. *)
Definition occurs (needle hay : string) : Prop :=
  exists pre post, hay = pre ++ needle ++ post.

(** Two strings are equal up to the case of ASCII letters. *)
Definition same_ignoring_case (s t : string) : Prop := Text.lower s = Text.lower t.

(** [needle] occurs in [hay] up to the case of ASCII letters. *)
Definition occurs_ignoring_case (needle hay : string) : Prop :=
  exists pre mid post, hay = pre ++ mid ++ post /\ same_ignoring_case mid needle.

Definition is_function_def (n : Ast.ast) : bool :=
  match Ast.cls_of n with
  | Ast.FunctionDef _ => true
  | _ => false
  end.

(** The function-definition nodes of a tree, and the decision points in
    the subtree of a node, by structural recursion. *)
Definition function_nodes (tree : Ast.ast) : list Ast.ast :=
  List.filter is_function_def (Ast.subtrees tree).

Definition decision_points (node : Ast.ast) : nat :=
  length (List.filter is_decision (Ast.subtrees node)).

Definition total_decision_points (tree : Ast.ast) : nat :=
  list_sum (List.map decision_points (function_nodes tree)).



Definition fresh_achievement (name : string) (target : Z) : achievement_row :=
  {| a_description := "Achievement: " ++ name; a_unlocked := false;
     a_progress := 0; a_target := target; a_unlocked_at := None |}.

(** The issues of the structured path before the last check, as a
    function of what the first six checks look at. *)
Definition six_checks (content : string) (st : walk_state) (loc : nat) : list string :=
  append_if (0 <? Text.count "except:" content)%nat issue_except
    (append_if (Text.contains "todo" (Text.lower content)
                || Text.contains "fixme" (Text.lower content)) issue_todo
       (append_if (10 <? length (w_classes st))%nat issue_classes
          (append_if (negb (Qle_bool (score (w_complexity st) (length (w_functions st))) 8))
                     issue_complexity
             (append_if (1000 <? loc)%nat issue_large
                (append_if (25 <? length (w_functions st))%nat issue_functions []))))).

Definition python_loc (content : string) : nat :=
  length (List.filter
            (fun line => Text.strip_nonempty line
                         && negb (Text.strip_startswith "#" line))
            (Text.splitlines content)).

(** What one node adds to the complexity counter. *)
Definition contribution (node : Ast.ast) : nat :=
  if is_function_def node then decision_points node else 0%nat.

(** The state after a cache miss on [path] for which the extractor
    returned [analysis]. *)
Definition after_miss (w : world) (path hash : string) (analysis : CodeAnalysis)
    (now : Z) : world :=
  {| files := files w;
     database := update_achievements
                   (store (database w) path hash analysis now)
                   "code_analysis" now;
     extractions := S (extractions w) |}.


(** *** Further operations of the store ([sarek/core/database.py]) *)








(** [ORDER BY unlocked DESC, progress DESC] on the rows of
    [achievements]: whether row [a] may precede row [b]. *)
Definition precedes (a b : string * achievement_row) : bool :=
  (a_unlocked (snd a) && negb (a_unlocked (snd b)))
  || (Bool.eqb (a_unlocked (snd a)) (a_unlocked (snd b))
      && (a_progress (snd b) <=? a_progress (snd a))).

Definition unlocked_then_progress (a b : string * achievement_row) : Prop :=
  precedes a b = true.

#[local] Instance unlocked_then_progress_dec : RelDecision unlocked_then_progress.
Proof.
  intros a b. unfold unlocked_then_progress.
  destruct (precedes a b); [left; reflexivity|right; discriminate].
Defined.

Definition to_Achievement (r : string * achievement_row) : Achievement.t :=
  {| Achievement.name := fst r;
     Achievement.description := a_description (snd r);
     Achievement.unlocked := a_unlocked (snd r);
     Achievement.progress := a_progress (snd r);
     Achievement.target := a_target (snd r) |}.

Definition get_achievements (d : db) : list Achievement.t :=
  List.map to_Achievement
    (merge_sort unlocked_then_progress (map_to_list (achievements d))).

(** One entry of [get_sessions]. *)
Record session_info := {
  i_name : string;
  i_created_at : Z;
  i_last_used : Z;
  i_description : option string;
  i_message_count : nat
}.

(** [ORDER BY s.last_used DESC]. *)
Definition recently_used_first (a b : string * session_row) : Prop :=
  s_last_used (snd b) <= s_last_used (snd a).

#[local] Instance recently_used_first_dec : RelDecision recently_used_first.
Proof. intros a b. unfold recently_used_first. apply Z_le_dec. Defined.

(** [sessions LEFT JOIN conversations ... GROUP BY s.name, ...] with
    [COUNT(c.id)]: one entry per session with the number of its
    conversations. *)
Definition get_sessions (d : db) : list session_info :=
  List.map
    (fun s => {| i_name := fst s;
                 i_created_at := s_created_at (snd s);
                 i_last_used := s_last_used (snd s);
                 i_description := s_description (snd s);
                 i_message_count :=
                   length (List.filter (in_session (fst s)) (conversations d)) |})
    (merge_sort recently_used_first (map_to_list (sessions d))).




(** *** The directory batch ([_analyze_directory_with_progress] in
    [sarek/main.py]) *)

(** The loop over [all_files]: each file is analyzed in turn and the
    results that are not [None] are collected.  The loop has no handler:
    an exception of a request ends the batch, with the state that the
    requests before it left. *)
Fixpoint analyze_files (w : world) (requests : list (string * Z))
    : outcome (list CodeAnalysis) * world :=
  match requests with
  | [] => (Returns [], w)
  | (path, now) :: rest =>
      match analyze_file_with_progress w path now with
      | (Raises e, w1) => (Raises e, w1)
      | (Returns analysis, w1) =>
          match analyze_files w1 rest with
          | (Raises e, w2) => (Raises e, w2)
          | (Returns analyses, w2) =>
              (Returns match analysis with
                       | Some a => a :: analyses
                       | None => analyses
                       end, w2)
          end
      end
  end.

(** *** Prompt assembly ([sarek/core/ai_interface.py]) *)

Definition MODEL_ROUTING : list (string * string) :=
  [("code_analysis", "codellama"); ("general_chat", "mistral");
   ("creative_writing", "llama2"); ("technical_docs", "mistral");
   ("math_problems", "mistral"); ("debugging", "codellama")].

Definition code_words : list string :=
  ["code"; "function"; "class"; "debug"; "algorithm"; "programming";
   "syntax"; "bug"; "error"; "compile"; "refactor"].

Definition math_words : list string :=
  ["calculate"; "math"; "equation"; "formula"; "solve"].

Definition creative_words : list string :=
  ["write"; "story"; "creative"; "poem"; "narrative"].

(** [any(word in text for word in words)].  None of the words below
    holds a "k" and in none is an "i" the last letter, so [Text.lower]
    gives these tests the value they have on the result of [str.lower]. *)
Definition any_word_in (words : list string) (text : string) : bool :=
  existsb (fun word => Text.contains word text) words.

Definition auto_select_model (user_input : string) : string :=
  let user_input_lower := Text.lower user_input in
  if any_word_in code_words user_input_lower
  then dict_get MODEL_ROUTING "code_analysis" "codellama"
  else if any_word_in math_words user_input_lower
  then dict_get MODEL_ROUTING "math_problems" "mistral"
  else if any_word_in creative_words user_input_lower
  then dict_get MODEL_ROUTING "creative_writing" "llama2"
  else dict_get MODEL_ROUTING "general_chat" "mistral".






(** *** Further notions used to state the properties *)

(** A row of [achievements] as the increments leave it: unlocked exactly
    when the progress has reached the target, progress between 1 and
    max(target, 1), and [unlocked_at] set exactly when unlocked. *)
Definition row_consistent (r : achievement_row) : Prop :=
  (a_unlocked r = true <-> a_target r <= a_progress r)
  /\ 1 <= a_progress r <= Z.max (a_target r) 1
  /\ (a_unlocked r = true <-> a_unlocked_at r <> None).

Definition table_consistent (t : gmap string achievement_row) : Prop :=
  forall name r, t !! name = Some r -> row_consistent r.

(** Repeated increments of one achievement, one per time in [nows]. *)
Definition increment_many (t : gmap string achievement_row) (name : string)
    (target : Z) (nows : list Z) : gmap string achievement_row :=
  fold_left (fun acc now => increment_achievement_table acc name target now) nows t.

(** Repeated calls of [increment_achievement] for one achievement, one
    per time in [nows]; a call that raises leaves the database as it
    was. *)
Definition increment_repeatedly (d : db) (name : string) (target : Z) (nows : list Z)
    : db :=
  fold_left (fun acc now => snd (increment_achievement acc name target now)) nows d.

(** The row of an achievement after one increment, from what the table
    held for it before. *)
Definition next_row (before : option achievement_row) (name : string)
    (target now : Z) : achievement_row :=
  let r := match before with Some r => r | None => fresh_achievement name target end in
  if a_unlocked r then r
  else {| a_description := a_description r;
          a_unlocked := a_target r <=? a_progress r + 1;
          a_progress := a_progress r + 1;
          a_target := a_target r;
          a_unlocked_at := if a_target r <=? a_progress r + 1
                           then Some now else a_unlocked_at r |}.




(** Every conversation belongs to a session that has a row. *)
Definition sessions_cover (d : db) : Prop :=
  forall r, In r (conversations d) -> is_Some (sessions d !! c_session_name r).






(** A path that [open] can read. *)
Definition readable (fs : gmap string file_entry) (path : string) : bool :=
  match fs !! path with
  | Some (Regular _) => true
  | _ => false
  end.

(** The cache holds a row for the path under the digest of its content. *)
Definition cached (w : world) (path : string) : bool :=
  match select_cached (code_analysis (database w)) path
          (get_file_hash (files w) path) with
  | Some _ => true
  | None => false
  end.


(** Row ids are below the AUTOINCREMENT counter. *)
Definition ids_bounded (d : db) : Prop :=
  forall r, In r (code_analysis d) -> r_id r <= code_analysis_seq d.

(** The order of [get_achievements] on its results. *)
Definition unlocked_first (a b : Achievement.t) : Prop :=
  (Achievement.unlocked a = true /\ Achievement.unlocked b = false)
  \/ (Achievement.unlocked a = Achievement.unlocked b
      /\ Achievement.progress b <= Achievement.progress a).


(** The cache table is well formed: one row per path, distinct row ids,
    all below the AUTOINCREMENT counter. *)
Definition table_wf (d : db) : Prop :=
  unique_paths d /\ ids_bounded d /\ NoDup (List.map r_id (code_analysis d)).













(** The decision points of a tree, each counted once for every function
    definition that encloses it; [depth] is the number of function
    definitions above the root. *)
Fixpoint weighted_decisions (depth : nat) (t : Ast.ast) : nat :=
  match t with
  | Ast.Node c cs =>
      ((if is_decision (Ast.Node c cs) then depth else 0)
       + list_sum
           (List.map
              (weighted_decisions
                 (if is_function_def (Ast.Node c cs) then S depth else depth))
              cs))%nat
  end.


(** One of the words of a list occurs in a text, up to the case of
    ASCII letters. *)
Definition some_word_occurs (words : list string) (text : string) : Prop :=
  exists word, In word words /\ occurs_ignoring_case word text.


(** The row of an achievement agrees with a count [n] of events: no row
    before the first event, then progress min(n, target), unlocked
    exactly when n has reached the target. *)
Definition counter_agrees (t : gmap string achievement_row) (name : string)
    (target : Z) (n : nat) : Prop :=
  match t !! name with
  | None => n = 0%nat
  | Some r =>
      (1 <= n)%nat
      /\ a_progress r = Z.min (Z.of_nat n) target
      /\ a_target r = target
      /\ a_unlocked r = (target <=? Z.of_nat n)
  end.

(** The two achievements of 'code_analysis' count the runs of the
    extractor. *)
Definition analysis_counters_agree (w : world) : Prop :=
  counter_agrees (achievements (database w)) "code_analyzer" 50 (extractions w)
  /\ counter_agrees (achievements (database w)) "quality_guru" 25 (extractions w).

(** The world after a [save_conversation]. *)
Definition after_save (w : world) (session user ai context model : string) (now : Z)
    : world :=
  {| files := files w;
     database := save_conversation (database w) session user ai context model now;
     extractions := extractions w |}.


(* =================================================================== *)
(** ** Properties *)
(* =================================================================== *)

(** *** The cache table *)

Lemma store_rows (d : db) (path hash : string) (a : CodeAnalysis) (now : Z) :
  exists row,
    code_analysis (store d path hash a now)
    = (List.filter (fun r => negb (String.eqb (r_file_path r) path)) (code_analysis d)
         ++ [row])%list
    /\ r_file_path row = path /\ r_file_hash row = hash
    /\ r_analysis_data row = json_dumps a
    /\ r_language row = language a
    /\ r_id row = code_analysis_seq d + 1.
Proof. eexists. repeat split. Qed.

Lemma filter_other_paths_NoDup (path : string) (rows : list code_analysis_row) :
  NoDup (List.map r_file_path rows) ->
  NoDup (List.map r_file_path
           (List.filter (fun r => negb (String.eqb (r_file_path r) path)) rows)).
Proof.
  induction rows as [|r rows IH]; simpl; intros Hnd; [constructor|].
  apply NoDup_cons in Hnd as [Hnot Hnd].
  destruct (String.eqb (r_file_path r) path); simpl; [auto|].
  apply NoDup_cons. split; [|auto].
  intros Hin. apply Hnot.
  apply list_elem_of_In in Hin. apply list_elem_of_In.
  apply in_map_iff in Hin as (x & Hx & Hin).
  apply filter_In in Hin as [Hin _].
  apply in_map_iff. eauto.
Qed.

Lemma path_not_in_filter (path : string) (rows : list code_analysis_row) :
  ~ In path (List.map r_file_path
               (List.filter (fun r => negb (String.eqb (r_file_path r) path)) rows)).
Proof.
  intros Hin. apply in_map_iff in Hin as (x & Hx & Hin).
  apply filter_In in Hin as [_ Hne].
  rewrite Hx, String.eqb_refl in Hne. discriminate.
Qed.

Lemma store_unique (d : db) (path hash : string) (a : CodeAnalysis) (now : Z) :
  unique_paths d -> unique_paths (store d path hash a now).
Proof.
  unfold unique_paths. intros Hnd. simpl.
  rewrite List.map_app. simpl.
  apply NoDup_app. split; [now apply filter_other_paths_NoDup|].
  split; [|apply NoDup_singleton].
  intros x Hx Hx'. apply list_elem_of_In in Hx.
  apply list_elem_of_singleton in Hx'. subst x.
  now apply path_not_in_filter in Hx.
Qed.

Lemma apply_stores_unique ops (d : db) :
  unique_paths d -> unique_paths (apply_stores ops d).
Proof.
  revert d. induction ops as [|[[[p h] a] t] ops IH]; intros d Hd; [exact Hd|].
  simpl. apply IH. now apply store_unique.
Qed.

Lemma filter_path_of_others (path : string) (rows : list code_analysis_row) :
  List.filter (fun r => String.eqb (r_file_path r) path)
    (List.filter (fun r => negb (String.eqb (r_file_path r) path)) rows) = [].
Proof.
  induction rows as [|r rows IH]; [reflexivity|].
  simpl. destruct (String.eqb (r_file_path r) path) eqn:E; simpl; [exact IH|].
  rewrite E. exact IH.
Qed.

Lemma rows_for_store_same (d : db) (path hash : string) (a : CodeAnalysis) (now : Z) :
  exists row,
    rows_for path (store d path hash a now) = [row]
    /\ r_file_path row = path /\ r_file_hash row = hash
    /\ r_analysis_data row = json_dumps a.
Proof.
  destruct (store_rows d path hash a now) as (row & Hrows & Hp & Hh & Ha & _).
  exists row. split; [|auto].
  unfold rows_for. rewrite Hrows, List.filter_app, filter_path_of_others.
  simpl. rewrite Hp, String.eqb_refl. reflexivity.
Qed.

(** C5. After any sequence of cache writes the [code_analysis] table has
    at most one row per [file_path] (the invariant holds initially and
    every write keeps it); two writes for one path leave exactly one
    row for it, which carries the digest and the analysis of the second
    write. *)
Theorem cache_store_is_upsert :
  (forall ops, unique_paths (apply_stores ops init_db))
  /\ (forall d path h1 a1 t1 h2 a2 t2,
        exists row,
          rows_for path (store (store d path h1 a1 t1) path h2 a2 t2) = [row]
          /\ r_file_hash row = h2
          /\ r_analysis_data row = json_dumps a2
          /\ r_language row = language a2
          /\ r_lines_of_code row = lines_of_code a2
          /\ r_complexity_score row = complexity_score a2).
Proof.
  split.
  - intros ops. apply apply_stores_unique. constructor.
  - intros. destruct (rows_for_store_same (store d path h1 a1 t1) path h2 a2 t2)
      as (row & Hrows & _).
    exists row. split; [exact Hrows|].
    unfold rows_for in Hrows. simpl in Hrows.
    rewrite List.filter_app in Hrows. simpl in Hrows.
    rewrite String.eqb_refl in Hrows.
    apply (f_equal (@rev _)) in Hrows. rewrite rev_app_distr in Hrows.
    simpl in Hrows. injection Hrows as <- _. repeat split.
Qed.

(** *** Achievements *)

Lemma insert_or_ignore_missing (t : gmap string achievement_row) name target :
  t !! name = None ->
  insert_or_ignore_achievement t name target !! name = Some (fresh_achievement name target).
Proof.
  intros H. unfold insert_or_ignore_achievement. rewrite H.
  apply lookup_insert_eq.
Qed.

Lemma insert_or_ignore_present (t : gmap string achievement_row) name target r :
  t !! name = Some r -> insert_or_ignore_achievement t name target = t.
Proof. intros H. unfold insert_or_ignore_achievement. now rewrite H. Qed.

Lemma insert_or_ignore_idempotent (t : gmap string achievement_row) name target target' :
  insert_or_ignore_achievement (insert_or_ignore_achievement t name target) name target'
  = insert_or_ignore_achievement t name target.
Proof.
  destruct (t !! name) as [r|] eqn:E.
  - rewrite (insert_or_ignore_present _ _ target _ E).
    apply (insert_or_ignore_present _ _ _ _ E).
  - apply (insert_or_ignore_present _ _ _ _ (insert_or_ignore_missing _ _ _ E)).
Qed.

Lemma increment_unlocked_noop (t : gmap string achievement_row) name target now r :
  t !! name = Some r -> a_unlocked r = true ->
  increment_achievement_table t name target now = t.
Proof.
  intros Hr Hu. unfold increment_achievement_table.
  rewrite (insert_or_ignore_present _ _ _ _ Hr).
  unfold update_progress. rewrite Hr, Hu.
  unfold select_reached. rewrite Hr, Hu, andb_false_r. reflexivity.
Qed.

Lemma increment_locked_step (t : gmap string achievement_row) name target now r :
  insert_or_ignore_achievement t name target !! name = Some r ->
  a_unlocked r = false ->
  increment_achievement_table t name target now !! name
  = Some {| a_description := a_description r;
            a_unlocked := a_target r <=? a_progress r + 1;
            a_progress := a_progress r + 1;
            a_target := a_target r;
            a_unlocked_at := if a_target r <=? a_progress r + 1
                             then Some now else a_unlocked_at r |}.
Proof.
  intros Hr Hu. unfold increment_achievement_table.
  unfold update_progress. rewrite Hr, Hu.
  unfold select_reached. rewrite lookup_insert_eq. simpl.
  rewrite andb_true_r.
  destruct (a_target r <=? a_progress r + 1) eqn:E.
  - unfold update_unlocked. rewrite lookup_insert_eq. simpl.
    now rewrite lookup_insert_eq.
  - now rewrite lookup_insert_eq.
Qed.

Lemma increment_other_rows (t : gmap string achievement_row) name target now other :
  other <> name ->
  increment_achievement_table t name target now !! other = t !! other.
Proof.
  intros Hne. unfold increment_achievement_table.
  assert (H1 : insert_or_ignore_achievement t name target !! other = t !! other).
  { unfold insert_or_ignore_achievement. destruct (t !! name); [reflexivity|].
    now rewrite lookup_insert_ne. }
  assert (H2 : forall u : gmap string achievement_row, update_progress u name !! other = u !! other).
  { intros u. unfold update_progress. destruct (u !! name) as [r|]; [|reflexivity].
    destruct (a_unlocked r); [reflexivity|]. now rewrite lookup_insert_ne. }
  assert (H3 : forall u : gmap string achievement_row, update_unlocked u name now !! other = u !! other).
  { intros u. unfold update_unlocked. destruct (u !! name) as [r|]; [|reflexivity].
    now rewrite lookup_insert_ne. }
  destruct (select_reached _ name); [rewrite H3|]; now rewrite H2, H1.
Qed.

(** The row of [name] after [n] increments (1 <= n <= 3) with target 3
    from the empty table. *)
Lemma achievement_run_target_3 (name : string) (now : Z) (n : nat) :
  (1 <= n <= 3)%nat ->
  Nat.iter n (fun t => increment_achievement_table t name 3 now) ∅ !! name
  = Some {| a_description := "Achievement: " ++ name;
            a_unlocked := 3 <=? Z.of_nat n;
            a_progress := Z.of_nat n;
            a_target := 3;
            a_unlocked_at := if 3 <=? Z.of_nat n then Some now else None |}.
Proof.
  intros Hn.
  assert (H1 : Nat.iter 1 (fun t => increment_achievement_table t name 3 now) ∅ !! name
               = Some {| a_description := "Achievement: " ++ name; a_unlocked := false;
                         a_progress := 1; a_target := 3; a_unlocked_at := None |}).
  { simpl. rewrite (increment_locked_step ∅ name 3 now (fresh_achievement name 3));
      [reflexivity| |reflexivity].
    now apply insert_or_ignore_missing. }
  assert (H2 : Nat.iter 2 (fun t => increment_achievement_table t name 3 now) ∅ !! name
               = Some {| a_description := "Achievement: " ++ name; a_unlocked := false;
                         a_progress := 2; a_target := 3; a_unlocked_at := None |}).
  { change (Nat.iter 2 ?f ?x) with (f (Nat.iter 1 f x)). cbv beta.
    rewrite (increment_locked_step _ name 3 now _ (eq_trans
               (f_equal (fun u => u !! name) (insert_or_ignore_present _ _ _ _ H1)) H1)
               eq_refl).
    reflexivity. }
  assert (H3 : Nat.iter 3 (fun t => increment_achievement_table t name 3 now) ∅ !! name
               = Some {| a_description := "Achievement: " ++ name; a_unlocked := true;
                         a_progress := 3; a_target := 3; a_unlocked_at := Some now |}).
  { change (Nat.iter 3 ?f ?x) with (f (Nat.iter 2 f x)). cbv beta.
    rewrite (increment_locked_step _ name 3 now _ (eq_trans
               (f_equal (fun u => u !! name) (insert_or_ignore_present _ _ _ _ H2)) H2)
               eq_refl).
    reflexivity. }
  destruct n as [|[|[|[|n]]]]; try lia; assumption.
Qed.

Lemma increment_achievement_returns (d : db) (name : string) (target now : Z) :
  int64 target = true ->
  increment_achievement d name target now
  = (Returns tt,
     with_achievements d (increment_achievement_table (achievements d) name target now)).
Proof. intros H. unfold increment_achievement. now rewrite H. Qed.

Lemma increment_achievement_raises (d : db) (name : string) (target now : Z) :
  int64 target = false ->
  increment_achievement d name target now = (Raises OverflowError, d).
Proof. intros H. unfold increment_achievement. now rewrite H. Qed.

(** Every call that [update_achievements] makes is within the range of
    the binding. *)
Lemma achievements_to_check_in_range (action name : string) (target : Z) :
  In (name, target) (achievements_to_check action) -> int64 target = true.
Proof.
  unfold achievements_to_check.
  repeat match goal with
         | |- context [if ?b then _ else _] => destruct b
         end;
    cbn [In]; intros H;
    repeat match goal with
           | H : _ \/ _ |- _ => destruct H as [H|H]
           | H : (_, _) = (_, _) |- _ => injection H as _ <-; reflexivity
           | H : False |- _ => destruct H
           end.
Qed.

(** C3 (as amended). For a target within the signed 64-bit range,
    [increment_achievement] returns; it creates a missing row with
    progress 0 and the target of the call (a create that leaves an
    existing row alone), changes nothing on an unlocked row, and
    otherwise adds exactly 1 to [progress] and sets [unlocked] (with
    [unlocked_at]) exactly when the new progress reaches the target
    stored in the row, which is the target of the call when the call
    created the row; the other rows and tables are untouched.  With
    target 3, three calls on a fresh database give unlocked false,
    false, true, and the fourth call changes nothing.  For a target
    outside the range the call raises [OverflowError] and changes
    nothing. *)
Theorem increment_achievement_unlocks_once (d : db) (name : string) (target now : Z) :
  int64 target = true ->
  let t := achievements d in
  let created := insert_or_ignore_achievement t name target in
  let d' := snd (increment_achievement d name target now) in
  let t' := achievements d' in
  fst (increment_achievement d name target now) = Returns tt
  /\ (t !! name = None -> created !! name = Some (fresh_achievement name target))
  /\ (forall r, t !! name = Some r -> created = t)
  /\ insert_or_ignore_achievement created name target = created
  /\ (forall r, t !! name = Some r -> a_unlocked r = true -> d' = d)
  /\ (forall r, created !! name = Some r -> a_unlocked r = false ->
        exists r', t' !! name = Some r'
                   /\ a_progress r' = a_progress r + 1
                   /\ a_target r' = a_target r
                   /\ a_description r' = a_description r
                   /\ (a_unlocked r' = true <-> a_target r <= a_progress r')
                   /\ a_unlocked_at r' = (if a_unlocked r' then Some now else a_unlocked_at r))
  /\ (t !! name = None ->
        exists r', t' !! name = Some r'
                   /\ a_progress r' = 1
                   /\ a_target r' = target
                   /\ (a_unlocked r' = true <-> target <= 1))
  /\ (forall other, other <> name -> t' !! other = t !! other)
  /\ conversations d' = conversations d
  /\ code_analysis d' = code_analysis d
  /\ sessions d' = sessions d
  /\ (let d1 := snd (increment_achievement init_db name 3 now) in
      let d2 := snd (increment_achievement d1 name 3 now) in
      let d3 := snd (increment_achievement d2 name 3 now) in
      let d4 := snd (increment_achievement d3 name 3 now) in
      achievements init_db !! name = None
      /\ (a_unlocked <$> achievements d1 !! name) = Some false
      /\ (a_unlocked <$> achievements d2 !! name) = Some false
      /\ (a_unlocked <$> achievements d3 !! name) = Some true
      /\ (a_progress <$> achievements d3 !! name) = Some 3
      /\ (a_unlocked_at <$> achievements d3 !! name) = Some (Some now)
      /\ d4 = d3)
  /\ (forall big, int64 big = false ->
        increment_achievement d name big now = (Raises OverflowError, d)).
Proof.
  intros Hrange. cbv zeta.
  rewrite (increment_achievement_returns d name target now Hrange).
  cbn [fst snd with_achievements achievements conversations code_analysis sessions].
  assert (Hrun : forall n : nat, (1 <= n <= 3)%nat ->
            achievements
              (Nat.iter n (fun e => snd (increment_achievement e name 3 now)) init_db)
            = Nat.iter n (fun t => increment_achievement_table t name 3 now) ∅).
  { intros n _. induction n as [|n IH]; [reflexivity|].
    change (achievements
              (snd (increment_achievement
                      (Nat.iter n (fun e => snd (increment_achievement e name 3 now))
                                init_db) name 3 now))
            = increment_achievement_table
                (Nat.iter n (fun t => increment_achievement_table t name 3 now) ∅)
                name 3 now).
    rewrite (increment_achievement_returns _ name 3 now eq_refl).
    cbn [snd with_achievements achievements]. now rewrite IH. }
  split; [reflexivity|]. split; [apply insert_or_ignore_missing|].
  split; [intros r; apply insert_or_ignore_present|].
  split; [apply insert_or_ignore_idempotent|].
  split.
  { intros r Hr Hu. rewrite (increment_unlocked_noop _ _ _ _ _ Hr Hu). now destruct d. }
  split.
  { intros r Hr Hu. eexists. split; [apply (increment_locked_step _ _ _ _ _ Hr Hu)|].
    simpl. repeat split; try (intros H; apply Z.leb_le; exact H). }
  split.
  { intros Hnone. eexists.
    split; [apply (increment_locked_step _ _ _ _ _
                     (insert_or_ignore_missing _ _ target Hnone) eq_refl)|].
    simpl. repeat split; try (intros H; apply Z.leb_le; exact H). }
  split; [intros other Hne; now apply increment_other_rows|].
  split; [reflexivity|]. split; [reflexivity|]. split; [reflexivity|].
  split.
  { pose proof (Hrun 1%nat ltac:(lia)) as E1. pose proof (Hrun 2%nat ltac:(lia)) as E2.
    pose proof (Hrun 3%nat ltac:(lia)) as E3.
    cbn [Nat.iter nat_rect] in E1, E2, E3.
    pose proof (achievement_run_target_3 name now 1 ltac:(lia)) as H1.
    pose proof (achievement_run_target_3 name now 2 ltac:(lia)) as H2.
    pose proof (achievement_run_target_3 name now 3 ltac:(lia)) as H3.
    cbn [Nat.iter nat_rect] in H1, H2, H3.
    rewrite E1, E2, E3, H1, H2, H3.
    split; [reflexivity|]. split; [reflexivity|]. split; [reflexivity|].
    split; [reflexivity|]. split; [reflexivity|]. split; [reflexivity|].
    rewrite (increment_achievement_returns _ name 3 now eq_refl). cbn [snd].
    rewrite E3, (increment_unlocked_noop _ _ _ _ _ H3 eq_refl), <- E3.
    now destruct (snd _). }
  intros big Hbig. now apply increment_achievement_raises.
Qed.

(** *** Sessions and the context window *)

Lemma update_achievements_frame (d : db) (action : string) (now : Z) :
  conversations (update_achievements d action now) = conversations d
  /\ conversations_seq (update_achievements d action now) = conversations_seq d
  /\ code_analysis (update_achievements d action now) = code_analysis d
  /\ code_analysis_seq (update_achievements d action now) = code_analysis_seq d
  /\ sessions (update_achievements d action now) = sessions d.
Proof.
  unfold update_achievements.
  generalize (achievements_to_check action). intros l. revert d.
  induction l as [|[n t] l IH]; intros d; [repeat split|].
  cbn [fold_left].
  destruct (IH (snd (increment_achievement d n t now))) as (H1 & H2 & H3 & H4 & H5).
  rewrite H1, H2, H3, H4, H5. unfold increment_achievement.
  destruct (int64 t); repeat split.
Qed.

(** C7 (the behaviour of the code). Every [save_conversation] replaces
    the whole session row: after the call [created_at] equals the time
    of the call, [description] is NULL and [mood] is 'neutral',
    whatever the row held before.  A session first written at time 100
    and written again at time 200 has [created_at] 200. *)
Theorem save_conversation_resets_session_row
    (d : db) (session user ai context model : string) (now : Z) :
  sessions (save_conversation d session user ai context model now) !! session
  = Some {| s_created_at := now; s_last_used := now;
            s_description := None; s_mood := Some "neutral" |}
  /\ (let d1 := save_conversation d session user ai context model 100 in
      let d2 := save_conversation d1 session user ai context model 200 in
      (s_created_at <$> sessions d1 !! session) = Some 100
      /\ (s_created_at <$> sessions d2 !! session) = Some 200
      /\ (s_last_used <$> sessions d2 !! session) = Some 200).
Proof.
  assert (H : forall e n,
    sessions (save_conversation e session user ai context model n) !! session
    = Some {| s_created_at := n; s_last_used := n;
              s_description := None; s_mood := Some "neutral" |}).
  { intros e n. unfold save_conversation.
    destruct (update_achievements_frame
      {| conversations := conversations e ++
           [{| c_id := conversations_seq e + 1; c_session_name := session;
               c_timestamp := n; c_user_input := user; c_ai_response := ai;
               c_context_used := context; c_model_used := model |}];
         conversations_seq := conversations_seq e + 1;
         code_analysis := code_analysis e;
         code_analysis_seq := code_analysis_seq e;
         sessions := <[session := {| s_created_at := n; s_last_used := n;
                                     s_description := None;
                                     s_mood := Some "neutral" |}]>
                       (delete session (sessions e));
         achievements := achievements e |} "conversation" n)
      as (_ & _ & _ & _ & Hs).
    rewrite Hs. simpl. apply lookup_insert_eq. }
  split; [apply H|]. cbv zeta. rewrite !H. repeat split.
Qed.

Lemma int64_spec (n : Z) : int64 n = true <-> - 2 ^ 63 <= n < 2 ^ 63.
Proof. unfold int64. rewrite andb_true_iff, Z.leb_le, Z.ltb_lt. reflexivity. Qed.

Lemma int64_false (n : Z) : int64 n = false <-> n < - 2 ^ 63 \/ 2 ^ 63 <= n.
Proof.
  unfold int64. rewrite andb_false_iff, Z.leb_gt, Z.ltb_ge. reflexivity.
Qed.













(** *** Substring tests *)

Lemma startswith_spec (p s : string) :
  Text.startswith p s = true <-> exists post, s = p ++ post.
Proof.
  revert s. induction p as [|a p IH]; intros s; simpl.
  - split; [intros _; now exists s|reflexivity].
  - destruct s as [|b s]; simpl.
    + split; [discriminate|intros [post H]; discriminate].
    + destruct (ascii_dec a b) as [->|Hne].
      * rewrite IH. split; intros [post H]; exists post; [now rewrite H|].
        now injection H.
      * split; [discriminate|]. intros [post H]. injection H as H _. congruence.
Qed.

Lemma contains_spec (needle hay : string) :
  Text.contains needle hay = true <-> occurs needle hay.
Proof.
  unfold occurs. induction hay as [|c hay IH].
  - simpl. rewrite orb_false_r, startswith_spec. split.
    + intros [post H]. now exists "", post.
    + intros (pre & post & H). destruct pre; [now exists post|discriminate].
  - cbn [Text.contains]. rewrite orb_true_iff, IH, startswith_spec. split.
    + intros [[post H]|(pre & post & H)].
      * now exists "", post.
      * exists (String c pre), post. simpl. now rewrite H.
    + intros (pre & post & H). destruct pre as [|a pre].
      * left. now exists post.
      * right. injection H as _ H. now exists pre, post.
Qed.

Lemma lower_app (s t : string) : Text.lower (s ++ t) = Text.lower s ++ Text.lower t.
Proof. induction s as [|c s IH]; simpl; [reflexivity|now rewrite IH]. Qed.

Lemma lower_split (s a b : string) :
  Text.lower s = a ++ b ->
  exists s1 s2, s = s1 ++ s2 /\ Text.lower s1 = a /\ Text.lower s2 = b.
Proof.
  revert s. induction a as [|x a IH]; intros s H.
  - now exists "", s.
  - destruct s as [|c s]; [discriminate|]. simpl in H. injection H as Hc H.
    destruct (IH s H) as (s1 & s2 & -> & H1 & H2).
    exists (String c s1), s2. simpl. now rewrite Hc, H1.
Qed.

Lemma contains_lower_spec (needle hay : string) :
  Text.lower needle = needle ->
  Text.contains needle (Text.lower hay) = true <-> occurs_ignoring_case needle hay.
Proof.
  intros Hn. rewrite contains_spec. unfold occurs, occurs_ignoring_case, same_ignoring_case.
  rewrite Hn. split.
  - intros (pre & post & H).
    destruct (lower_split _ _ _ H) as (s1 & s2 & -> & H1 & H2).
    destruct (lower_split _ _ _ H2) as (s3 & s4 & -> & H3 & H4).
    now exists s1, s3, s4.
  - intros (pre & mid & post & -> & H).
    exists (Text.lower pre), (Text.lower post). now rewrite !lower_app, H.
Qed.

Lemma count_from_positive (needle hay : string) (skip : nat) :
  needle <> "" ->
  (0 < Text.count_from needle hay skip)%nat
  <-> Text.contains needle (String.substring skip (String.length hay - skip) hay) = true.
Proof.
  intros Hne. revert skip. induction hay as [|c hay IH]; intros skip.
  - destruct skip; simpl; (split; [lia|]);
      destruct needle; try congruence; simpl; discriminate.
  - destruct skip as [|k].
    + cbn [Text.count_from]. replace (String.substring 0 _ (String c hay)) with (String c hay).
      2:{ clear. generalize (String c hay). intros s. induction s as [|a s IHs]; [reflexivity|].
          simpl. rewrite Nat.sub_0_r in IHs. now rewrite <- IHs. }
      cbn [Text.contains]. destruct (Text.startswith needle (String c hay)); simpl.
      * split; [reflexivity|lia].
      * rewrite (IH 0%nat). rewrite Nat.sub_0_r.
        replace (String.substring 0 (String.length hay) hay) with hay; [reflexivity|].
        clear. induction hay as [|a s IHs]; [reflexivity|]. simpl. now rewrite <- IHs.
    + cbn [Text.count_from]. rewrite (IH k). reflexivity.
Qed.

Lemma count_positive (needle hay : string) :
  needle <> "" ->
  (0 <? Text.count needle hay)%nat = Text.contains needle hay.
Proof.
  intros Hne. pose proof (count_from_positive needle hay 0 Hne) as H.
  rewrite Nat.sub_0_r in H.
  replace (String.substring 0 (String.length hay) hay) with hay in H.
  2:{ clear. induction hay as [|a s IHs]; [reflexivity|]. simpl. now rewrite <- IHs. }
  unfold Text.count. destruct (Text.contains needle hay).
  - apply Nat.ltb_lt. now apply H.
  - apply Nat.ltb_ge. destruct (Text.count_from needle hay 0); [lia|].
    assert (false = true) by (apply H; lia). discriminate.
Qed.

(** *** Quality issues *)

Lemma in_append_if (c : bool) (x y : string) (l : list string) :
  In x (append_if c y l) <-> In x l \/ (c = true /\ x = y).
Proof.
  unfold append_if. destruct c.
  - rewrite in_app_iff. simpl. split.
    + intros [H|[H|[]]]; [now left|right; now split].
    + intros [H|[_ H]]; [now left|right; left; now symmetry].
  - split; [now left|]. intros [H|[H _]]; [exact H|discriminate H].
Qed.

Lemma python_issues_parsed fs path content tree :
  read_text fs path = inr content ->
  ast_parse content = Parsed tree ->
  exists a,
    analyze_python_file fs path = Returns a
    /\ issues a
       = append_if (Text.contains "print(" content
                    && negb (Text.contains "debug" (Text.lower content)))
                   issue_print
                   (six_checks content (walk_tree tree) (python_loc content)).
Proof.
  intros Hread Hparse. unfold analyze_python_file. rewrite Hread, Hparse.
  eexists. split; reflexivity.
Qed.

Lemma six_checks_labels content st loc x :
  In x (six_checks content st loc) ->
  In x [issue_functions; issue_large; issue_complexity;
        issue_classes; issue_todo; issue_except].
Proof.
  unfold six_checks. rewrite !in_append_if. simpl.
  intros H. repeat (destruct H as [H|[_ H]]; [|subst x; simpl; auto 10]).
  destruct H.
Qed.

Lemma print_not_in_six_checks content st loc :
  ~ In issue_print (six_checks content st loc).
Proof.
  intros H. apply six_checks_labels in H. simpl in H.
  repeat (destruct H as [H|H]; [discriminate H|]). exact H.
Qed.

Lemma todo_in_six_checks content st loc :
  In issue_todo (six_checks content st loc)
  <-> Text.contains "todo" (Text.lower content)
      || Text.contains "fixme" (Text.lower content) = true.
Proof.
  unfold six_checks. rewrite !in_append_if. simpl. split.
  - intros [[[[[[[]|[_ H]]|[_ H]]|[_ H]]|[_ H]]|[H _]]|[_ H]];
      try discriminate H; exact H.
  - intros H. left. right. split; [exact H|reflexivity].
Qed.

(** C10. On the structured path, for an input that parses, the issues
    are those of the six checks of the table followed by one more check:
    the print warning is present exactly when the text contains
    "print(" and its lower-cased form does not contain "debug".  The
    six earlier checks never produce that warning. *)
Theorem print_check_on_python_path fs path content tree :
  read_text fs path = inr content ->
  ast_parse content = Parsed tree ->
  exists a,
    analyze_python_file fs path = Returns a
    /\ (In issue_print (issues a)
        <-> occurs "print(" content /\ ~ occurs "debug" (Text.lower content))
    /\ (exists base,
          issues a
          = (base ++ (if Text.contains "print(" content
                         && negb (Text.contains "debug" (Text.lower content))
                      then [issue_print] else []))%list
          /\ ~ In issue_print base
          /\ incl base [issue_functions; issue_large; issue_complexity;
                        issue_classes; issue_todo; issue_except]).
Proof.
  intros Hread Hparse.
  destruct (python_issues_parsed _ _ _ _ Hread Hparse) as (a & Ha & Hissues).
  exists a. split; [exact Ha|]. rewrite Hissues. split.
  - rewrite in_append_if, andb_true_iff, negb_true_iff.
    rewrite <- (contains_spec "print("), <- (contains_spec "debug").
    split.
    + intros [H|[[H1 H2] _]].
      * now apply print_not_in_six_checks in H.
      * split; [exact H1|]. rewrite H2. discriminate.
    + intros [H1 H2]. right. split; [|reflexivity]. split; [exact H1|].
      now destruct (Text.contains "debug" (Text.lower content)).
  - exists (six_checks content (walk_tree tree) (python_loc content)).
    split; [|split].
    + unfold append_if. destruct (_ && _); [reflexivity|now rewrite app_nil_r].
    + apply print_not_in_six_checks.
    + intros x. apply six_checks_labels.
Qed.

(** The structured path ignores case in its TODO/FIXME check. *)
Lemma python_todo_check_ignores_case fs path content tree :
  read_text fs path = inr content ->
  ast_parse content = Parsed tree ->
  exists a,
    analyze_python_file fs path = Returns a
    /\ (In issue_todo (issues a)
        <-> occurs_ignoring_case "todo" content \/ occurs_ignoring_case "fixme" content).
Proof.
  intros Hread Hparse.
  destruct (python_issues_parsed _ _ _ _ Hread Hparse) as (a & Ha & Hissues).
  exists a. split; [exact Ha|]. rewrite Hissues.
  rewrite in_append_if, todo_in_six_checks, orb_true_iff.
  rewrite !contains_lower_spec by reflexivity.
  split; [|intros H; left; exact H].
  intros [H|[_ H]]; [exact H|discriminate H].
Qed.

(** The pattern path looks for the upper-case words only. *)
Lemma generic_todo_check_is_case_sensitive fs path lang content :
  read_text fs path = inr content ->
  In issue_todo (issues (analyze_generic_file fs path lang))
  <-> occurs "TODO" content \/ occurs "FIXME" content.
Proof.
  intros Hread. unfold analyze_generic_file. rewrite Hread.
  set (loc := length _).
  assert (Hiss : forall p : list string * list string * list string * list string,
    issues (let '(funs, clss, imps, security) := p in
            {| file_path := path; language := lang; lines_of_code := loc;
               complexity_score := 0; functions := funs; classes := clss;
               imports := imps;
               issues := append_if (0 <? Text.count "TODO" content
                                        + Text.count "FIXME" content)%nat issue_todo
                           (append_if (500 <? loc)%nat issue_large []);
               security_issues := Some security |})
    = append_if (0 <? Text.count "TODO" content + Text.count "FIXME" content)%nat
                issue_todo (append_if (500 <? loc)%nat issue_large [])).
  { now intros [[[? ?] ?] ?]. }
  cbv zeta. rewrite Hiss. rewrite !in_append_if.
  rewrite <- !contains_spec.
  rewrite <- (count_positive "TODO") by discriminate.
  rewrite <- (count_positive "FIXME") by discriminate.
  rewrite !Nat.ltb_lt. simpl. split.
  - intros [[[]|[_ H]]|[H _]]; [discriminate H|lia].
  - intros H. right. split; [lia|reflexivity].
Qed.

(** C8 (the behaviour of the code). The pattern path tests for the
    upper-case words "TODO" and "FIXME" only: a JavaScript file whose
    text contains "todo" in lower case gets no TODO/FIXME issue,
    although the text contains "todo" when case is ignored. *)
Theorem generic_path_misses_lower_case_todo :
  let content := "// todo: tidy this up" in
  let fs : gmap string file_entry := {[ "app.js" := Regular (Codec.encode content) ]} in
  read_text fs "app.js" = inr content
  /\ occurs_ignoring_case "todo" content
  /\ issues (analyze_generic_file fs "app.js" "javascript") = []
  /\ ~ In issue_todo (issues (analyze_generic_file fs "app.js" "javascript")).
Proof.
  cbv zeta.
  assert (Hread : read_text (({[ "app.js" := Regular (Codec.encode "// todo: tidy this up") ]})
                               : gmap string file_entry) "app.js"
                  = inr "// todo: tidy this up").
  { unfold read_text, read_bytes. rewrite lookup_singleton_eq. reflexivity. }
  assert (Hiss : issues (analyze_generic_file
                           {[ "app.js" := Regular (Codec.encode "// todo: tidy this up") ]}
                           "app.js" "javascript") = []).
  { unfold analyze_generic_file. rewrite Hread. reflexivity. }
  split; [exact Hread|]. split; [|split].
  - exists "// ", "todo", ": tidy this up". split; reflexivity.
  - exact Hiss.
  - rewrite Hiss. intros [].
Qed.


(** *** Traversal and the complexity score *)

Lemma walk_queue_subtrees (todo : list Ast.ast) :
  Permutation (Ast.walk_queue todo) (flat_map Ast.subtrees todo).
Proof.
  funelim (Ast.walk_queue todo); [constructor|].
  simpl. constructor.
  etransitivity; [eassumption|].
  rewrite flat_map_app. apply Permutation_app_comm.
Qed.

Lemma walk_subtrees (t : Ast.ast) : Permutation (Ast.walk t) (Ast.subtrees t).
Proof.
  unfold Ast.walk. etransitivity; [apply walk_queue_subtrees|].
  simpl. now rewrite app_nil_r.
Qed.

Lemma filter_Permutation {A : Type} (f : A -> bool) (l l' : list A) :
  Permutation l l' -> Permutation (List.filter f l) (List.filter f l').
Proof.
  induction 1 as [|x l l' _ IH|x y l|l l' l'' _ IH1 _ IH2]; simpl.
  - constructor.
  - destruct (f x); [now constructor|exact IH].
  - destruct (f x), (f y); try reflexivity. constructor.
  - now transitivity (List.filter f l').
Qed.

Lemma list_sum_Permutation (l l' : list nat) :
  Permutation l l' -> list_sum l = list_sum l'.
Proof.
  induction 1 as [|x l l' _ IH|x y l|l l' l'' _ IH1 _ IH2]; simpl; lia.
Qed.

Lemma walk_decision_points (node : Ast.ast) :
  length (List.filter is_decision (Ast.walk node)) = decision_points node.
Proof.
  unfold decision_points. apply Permutation_length, filter_Permutation, walk_subtrees.
Qed.

Lemma visit_counts (st : walk_state) (node : Ast.ast) :
  w_complexity (visit st node) = (w_complexity st + contribution node)%nat
  /\ length (w_functions (visit st node))
     = (length (w_functions st) + (if is_function_def node then 1 else 0))%nat.
Proof.
  unfold visit, contribution, is_function_def.
  destruct (Ast.cls_of node); simpl;
    rewrite ?walk_decision_points, ?length_app; simpl; lia.
Qed.

Lemma fold_visit_counts (nodes : list Ast.ast) (st : walk_state) :
  w_complexity (fold_left visit nodes st)
  = (w_complexity st + list_sum (List.map contribution nodes))%nat
  /\ length (w_functions (fold_left visit nodes st))
     = (length (w_functions st) + length (List.filter is_function_def nodes))%nat.
Proof.
  revert st. induction nodes as [|n nodes IH]; intros st; simpl; [lia|].
  destruct (IH (visit st n)) as [H1 H2]. destruct (visit_counts st n) as [H3 H4].
  rewrite H1, H2, H3, H4. destruct (is_function_def n); simpl; lia.
Qed.

Lemma sum_contributions (nodes : list Ast.ast) :
  list_sum (List.map contribution nodes)
  = list_sum (List.map decision_points (List.filter is_function_def nodes)).
Proof.
  induction nodes as [|n nodes IH]; [reflexivity|].
  simpl. unfold contribution at 1. destruct (is_function_def n); simpl; lia.
Qed.

Lemma walk_tree_counts (tree : Ast.ast) :
  w_complexity (walk_tree tree) = total_decision_points tree
  /\ length (w_functions (walk_tree tree)) = length (function_nodes tree).
Proof.
  unfold walk_tree, total_decision_points, function_nodes.
  destruct (fold_visit_counts (Ast.walk tree)
              {| w_functions := []; w_classes := []; w_imports := []; w_complexity := 0 |})
    as [H1 H2].
  rewrite H1, H2. simpl. split.
  - rewrite <- sum_contributions.
    apply list_sum_Permutation, Permutation_map, walk_subtrees.
  - apply Permutation_length, filter_Permutation, walk_subtrees.
Qed.



(** *** Files of unknown type *)

(** What the analyzer computes for a file whose extension is not in
    the table: the pattern path with no pattern applied. *)
Lemma unknown_language_analysis fs path content :
  read_text fs path = inr content ->
  classify path = "unknown" ->
  extract fs path
  = Returns
      {| file_path := path; language := "unknown";
         lines_of_code :=
           length (List.filter Text.strip_nonempty (Text.splitlines content));
         complexity_score := 0; functions := []; classes := []; imports := [];
         issues :=
           append_if (0 <? Text.count "TODO" content + Text.count "FIXME" content)%nat
             issue_todo
             (append_if (500 <? length (List.filter Text.strip_nonempty
                                          (Text.splitlines content)))%nat
                issue_large []);
         security_issues := Some [] |}.
Proof.
  intros Hread Hcls. unfold extract. rewrite Hcls. simpl.
  unfold analyze_generic_file. rewrite Hread. reflexivity.
Qed.

(** C9 (the behaviour of the code). A file with an extension outside
    the table is classified "unknown" and analyzed by the pattern path:
    no functions, classes or imports and score 0, but no advisory
    issue; for a one-line text file the issue list is empty.  The
    legacy analyzer gives such a file exactly one advisory issue. *)
Theorem unknown_extension_gets_no_advisory :
  let content := "hello world" in
  let fs : gmap string file_entry := {[ "notes.txt" := Regular (Codec.encode content) ]} in
  let w := {| files := fs; database := init_db; extractions := 0 |} in
  classify "notes.txt" = "unknown"
  /\ fst (analyze_file_with_progress w "notes.txt" 0)
     = Returns
         (Some {| file_path := "notes.txt"; language := "unknown"; lines_of_code := 1;
                  complexity_score := 0; functions := []; classes := []; imports := [];
                  issues := []; security_issues := Some [] |})
  /\ issues (legacy_unknown_analysis "notes.txt" content) = [issue_unknown].
Proof.
  cbv zeta. split; [reflexivity|]. split; [|reflexivity].
  vm_compute. reflexivity.
Qed.

(** *** The analysis cache *)

Lemma hexdigest_not_empty (data : list byte) :
  String.eqb (MD5.hexdigest data) "" = false.
Proof.
  unfold MD5.hexdigest. destruct (MD5.digest_state _) as [a b c d]. reflexivity.
Qed.













(* =================================================================== *)
(** ** Further properties of the code *)
(* =================================================================== *)

(** *** Achievement counters *)

Lemma increment_row_cases (t : gmap string achievement_row) name target now :
  (exists r, t !! name = Some r /\ a_unlocked r = true
             /\ increment_achievement_table t name target now = t)
  \/ (exists r, insert_or_ignore_achievement t name target !! name = Some r
                /\ a_unlocked r = false
                /\ (t !! name = Some r \/ (t !! name = None /\ r = fresh_achievement name target))
                /\ increment_achievement_table t name target now !! name
                   = Some {| a_description := a_description r;
                             a_unlocked := a_target r <=? a_progress r + 1;
                             a_progress := a_progress r + 1;
                             a_target := a_target r;
                             a_unlocked_at := if a_target r <=? a_progress r + 1
                                              then Some now else a_unlocked_at r |}).
Proof.
  destruct (t !! name) as [r|] eqn:E.
  - destruct (a_unlocked r) eqn:Hu.
    + left. exists r. repeat split; try assumption.
      apply (increment_unlocked_noop _ _ _ _ _ E Hu).
    + right. exists r.
      assert (Hc : insert_or_ignore_achievement t name target !! name = Some r)
        by (rewrite (insert_or_ignore_present _ _ _ _ E); exact E).
      split; [exact Hc|]. split; [exact Hu|]. split; [left; reflexivity|].
      apply (increment_locked_step _ _ _ _ _ Hc Hu).
  - right. exists (fresh_achievement name target).
    pose proof (insert_or_ignore_missing _ _ target E) as Hc.
    split; [exact Hc|]. split; [reflexivity|]. split; [right; split; reflexivity|].
    apply (increment_locked_step _ _ _ _ _ Hc eq_refl).
Qed.

Ltac close_row :=
  intros; first [lia | congruence | (exfalso; lia) | (exfalso; congruence)].

Lemma fresh_then_incremented_consistent name target now :
  row_consistent
    {| a_description := a_description (fresh_achievement name target);
       a_unlocked := a_target (fresh_achievement name target) <=? 0 + 1;
       a_progress := 0 + 1; a_target := target;
       a_unlocked_at := if a_target (fresh_achievement name target) <=? 0 + 1
                        then Some now else None |}.
Proof.
  unfold row_consistent. simpl. change (0 + 1) with 1.
  destruct (Z.leb_spec target 1); simpl; repeat split; close_row.
Qed.

Lemma increment_keeps_consistent (t : gmap string achievement_row) name target now :
  table_consistent t ->
  table_consistent (increment_achievement_table t name target now).
Proof.
  intros Ht other r' Hr'.
  destruct (decide (other = name)) as [->|Hne].
  2:{ rewrite increment_other_rows in Hr' by exact Hne. exact (Ht _ _ Hr'). }
  destruct (increment_row_cases t name target now)
    as [(r & Hr & Hu & Heq)|(r & Hc & Hu & Horigin & Hstep)].
  - rewrite Heq in Hr'. exact (Ht _ _ Hr').
  - rewrite Hstep in Hr'. injection Hr' as <-.
    destruct Horigin as [Hr|[_ ->]].
    + destruct (Ht _ _ Hr) as ((Hu1 & Hu2) & Hp & (Ha1 & Ha2)).
      assert (Hlt : a_progress r < a_target r).
      { destruct (Z_lt_le_dec (a_progress r) (a_target r)) as [|Hle]; [assumption|].
        rewrite (Hu2 Hle) in Hu. discriminate Hu. }
      assert (Hnone : a_unlocked_at r = None).
      { destruct (a_unlocked_at r) eqn:Eat; [|reflexivity].
        rewrite Ha2 in Hu by discriminate. discriminate Hu. }
      unfold row_consistent. simpl. rewrite Hnone.
      destruct (Z.leb_spec (a_target r) (a_progress r + 1)); simpl;
        repeat split; close_row.
    + apply fresh_then_incremented_consistent.
Qed.

Lemma increment_lookup (t : gmap string achievement_row) name target now :
  increment_achievement_table t name target now !! name
  = Some (next_row (t !! name) name target now).
Proof.
  destruct (increment_row_cases t name target now)
    as [(r & Hr & Hu & Heq)|(r & Hc & Hu & Horigin & Hstep)].
  - rewrite Heq, Hr. unfold next_row. now rewrite Hu.
  - rewrite Hstep. unfold next_row.
    destruct Horigin as [->|[-> ->]]; [now rewrite Hu|reflexivity].
Qed.

Lemma increment_many_other (nows : list Z) (t : gmap string achievement_row)
    name target other :
  other <> name -> increment_many t name target nows !! other = t !! other.
Proof.
  intros Hne. revert t. induction nows as [|now l IH]; intros t; [reflexivity|].
  unfold increment_many in *. cbn [fold_left]. rewrite IH.
  now apply increment_other_rows.
Qed.


Lemma increment_many_unlocked (nows : list Z) (t : gmap string achievement_row)
    name target r :
  t !! name = Some r -> a_unlocked r = true ->
  increment_many t name target nows = t.
Proof.
  intros Hr Hu. induction nows as [|now l IH]; [reflexivity|].
  unfold increment_many in *. cbn [fold_left].
  now rewrite (increment_unlocked_noop _ _ _ _ _ Hr Hu).
Qed.

Lemma increment_many_locked (nows : list Z) (t : gmap string achievement_row)
    name target r :
  t !! name = Some r -> a_unlocked r = false -> a_progress r < a_target r ->
  increment_many t name target nows !! name
  = Some {| a_description := a_description r;
            a_unlocked := a_target r <=? a_progress r + Z.of_nat (length nows);
            a_progress := Z.min (a_progress r + Z.of_nat (length nows)) (a_target r);
            a_target := a_target r;
            a_unlocked_at :=
              if a_target r <=? a_progress r + Z.of_nat (length nows)
              then nth_error nows (Z.to_nat (a_target r - a_progress r - 1))
              else a_unlocked_at r |}.
Proof.
  revert t r. induction nows as [|now l IH]; intros t r Hr Hu Hlt.
  - simpl. rewrite Hr. destruct r as [de un pr ta at']. simpl in *. subst un.
    rewrite Z.add_0_r. destruct (Z.leb_spec ta pr); [lia|].
    now rewrite Z.min_l by lia.
  - cbn [increment_many fold_left length].
    change (fold_left _ l ?x) with (increment_many x name target l).
    pose proof (increment_lookup t name target now) as Hstep.
    rewrite Hr in Hstep. unfold next_row in Hstep. rewrite Hu in Hstep.
    rewrite Nat2Z.inj_succ.
    destruct (Z.leb_spec (a_target r) (a_progress r + 1)) as [Hle|Hgt].
    + rewrite (increment_many_unlocked l _ _ _ _ Hstep eq_refl), Hstep.
      assert (Heq : a_target r = a_progress r + 1) by lia.
      destruct (Z.leb_spec (a_target r) (a_progress r + Z.succ (Z.of_nat (length l))));
        [|lia].
      rewrite Z.min_r by lia.
      replace (a_target r - a_progress r - 1) with 0 by lia.
      simpl. now rewrite Heq.
    + rewrite (IH _ _ Hstep eq_refl) by (simpl; lia). simpl.
      replace (a_progress r + 1 + Z.of_nat (length l))
        with (a_progress r + Z.succ (Z.of_nat (length l))) by lia.
      destruct (Z.leb_spec (a_target r) (a_progress r + Z.succ (Z.of_nat (length l))));
        [|reflexivity].
      replace (Z.to_nat (a_target r - a_progress r - 1))
        with (S (Z.to_nat (a_target r - (a_progress r + 1) - 1))) by lia.
      reflexivity.
Qed.

(** X1. The achievement table stays consistent: every operation that
    touches it ([increment_achievement], [update_achievements],
    [save_conversation], an analysis request) keeps every row unlocked
    exactly when its progress has reached its target, with progress
    between 1 and max(target, 1) and [unlocked_at] set exactly on
    unlocked rows. *)
Theorem achievements_stay_consistent (d : db) :
  table_consistent (achievements d) ->
  (forall name target now,
     table_consistent (achievements (snd (increment_achievement d name target now))))
  /\ (forall action now,
        table_consistent (achievements (update_achievements d action now)))
  /\ (forall session user ai context model now,
        table_consistent
          (achievements (save_conversation d session user ai context model now)))
  /\ (forall fs runs path now,
        table_consistent
          (achievements
             (database
                (snd (analyze_file_with_progress
                        {| files := fs; database := d; extractions := runs |}
                        path now))))).
Proof.
  intros Hd.
  assert (Hupd : forall e action now,
            table_consistent (achievements e) ->
            table_consistent (achievements (update_achievements e action now))).
  { intros e action now. unfold update_achievements.
    generalize (achievements_to_check action). intros l. revert e.
    induction l as [|[n t] l IH]; intros e He; [exact He|].
    cbn [fold_left]. apply IH. unfold increment_achievement.
    destruct (int64 t); [|exact He]. now apply increment_keeps_consistent. }
  split; [|split; [|split]].
  - intros. unfold increment_achievement.
    destruct (int64 target); [|exact Hd]. now apply increment_keeps_consistent.
  - intros. now apply Hupd.
  - intros. unfold save_conversation. apply Hupd. exact Hd.
  - intros. unfold analyze_file_with_progress. cbn [files database extractions].
    destruct (negb (path_exists fs path)); [exact Hd|].
    destruct (String.eqb (get_file_hash fs path) ""); [exact Hd|].
    destruct (extract fs path) as [a|e].
    + destruct (select_cached _ _ _) as [text|];
        [destruct (json_loads text); [exact Hd|]|];
        cbn [snd database]; apply Hupd; exact Hd.
    + destruct (select_cached _ _ _) as [text|];
        [destruct (json_loads text)|]; exact Hd.
Qed.

Lemma increment_repeatedly_table (nows : list Z) (d : db) name target :
  int64 target = true ->
  achievements (increment_repeatedly d name target nows)
  = increment_many (achievements d) name target nows.
Proof.
  intros Hrange. revert d. induction nows as [|now l IH]; intros d; [reflexivity|].
  unfold increment_repeatedly, increment_many in *. cbn [fold_left].
  rewrite IH. unfold increment_achievement. now rewrite Hrange.
Qed.

Lemma increment_repeatedly_raises (nows : list Z) (d : db) name target :
  int64 target = false -> increment_repeatedly d name target nows = d.
Proof.
  intros Hrange. induction nows as [|now l IH]; [reflexivity|].
  unfold increment_repeatedly in *. cbn [fold_left].
  unfold increment_achievement at 2. rewrite Hrange. exact IH.
Qed.

Lemma increment_many_fresh
    (t : gmap string achievement_row) (name : string) (target : Z) (nows : list Z) :
  t !! name = None -> 1 <= target -> nows <> [] ->
  increment_many t name target nows !! name
  = Some {| a_description := "Achievement: " ++ name;
            a_unlocked := target <=? Z.of_nat (length nows);
            a_progress := Z.min (Z.of_nat (length nows)) target;
            a_target := target;
            a_unlocked_at :=
              if target <=? Z.of_nat (length nows)
              then nth_error nows (Z.to_nat (target - 1)) else None |}.
Proof.
  intros Hnone Htarget Hne. destruct nows as [|now l]; [congruence|].
  cbn [increment_many fold_left length].
  change (fold_left _ l ?x) with (increment_many x name target l).
  pose proof (increment_lookup t name target now) as Hstep.
  rewrite Hnone in Hstep. unfold next_row in Hstep. simpl in Hstep.
  change (0 + 1) with 1 in Hstep. rewrite Nat2Z.inj_succ.
  destruct (Z.leb_spec target 1) as [Hle|Hgt].
  - rewrite (increment_many_unlocked l _ _ _ _ Hstep eq_refl), Hstep.
    assert (target = 1) as -> by lia.
    destruct (Z.leb_spec 1 (Z.succ (Z.of_nat (length l)))); [|lia].
    now rewrite Z.min_r by lia.
  - rewrite (increment_many_locked l _ _ _ _ Hstep eq_refl) by (simpl; lia). simpl.
    replace (1 + Z.of_nat (length l)) with (Z.succ (Z.of_nat (length l))) by lia.
    destruct (Z.leb_spec target (Z.succ (Z.of_nat (length l)))); [|reflexivity].
    replace (Z.to_nat (target - 1)) with (S (Z.to_nat (target - 1 - 1))) by lia.
    reflexivity.
Qed.

(** X2. A counter saturates at its target: in a database without the
    achievement, n >= 1 calls of [increment_achievement] with a target T,
    1 <= T < 2^63, all return and leave the row with progress min(n, T),
    unlocked exactly when n >= T, and [unlocked_at] equal to the time of
    the T-th call; the rows of the other achievements and the other
    tables are left as they were.  With a target outside the signed
    64-bit range every call raises and the database stays as it was. *)
Theorem achievement_progress_saturates
    (d : db) (name : string) (target : Z) (nows : list Z) :
  achievements d !! name = None -> 1 <= target -> target < 2 ^ 63 -> nows <> [] ->
  achievements (increment_repeatedly d name target nows) !! name
  = Some {| a_description := "Achievement: " ++ name;
            a_unlocked := target <=? Z.of_nat (length nows);
            a_progress := Z.min (Z.of_nat (length nows)) target;
            a_target := target;
            a_unlocked_at :=
              if target <=? Z.of_nat (length nows)
              then nth_error nows (Z.to_nat (target - 1)) else None |}
  /\ (forall e now, fst (increment_achievement e name target now) = Returns tt)
  /\ (forall other, other <> name ->
        achievements (increment_repeatedly d name target nows) !! other
        = achievements d !! other)
  /\ conversations (increment_repeatedly d name target nows) = conversations d
  /\ sessions (increment_repeatedly d name target nows) = sessions d
  /\ code_analysis (increment_repeatedly d name target nows) = code_analysis d
  /\ (forall big, int64 big = false ->
        increment_repeatedly d name big nows = d
        /\ forall e now, increment_achievement e name big now = (Raises OverflowError, e)).
Proof.
  intros Hnone Htarget Hmax Hne.
  assert (Hrange : int64 target = true) by (apply int64_spec; lia).
  rewrite (increment_repeatedly_table nows d name target Hrange).
  split; [now apply increment_many_fresh|].
  split; [intros e now; unfold increment_achievement; now rewrite Hrange|].
  split; [intros other Hother; now apply increment_many_other|].
  assert (Hframe : forall l e,
            conversations (increment_repeatedly e name target l) = conversations e
            /\ sessions (increment_repeatedly e name target l) = sessions e
            /\ code_analysis (increment_repeatedly e name target l) = code_analysis e).
  { induction l as [|now l IH]; intros e; [repeat split|].
    unfold increment_repeatedly in *. cbn [fold_left].
    destruct (IH (snd (increment_achievement e name target now))) as (-> & -> & ->).
    unfold increment_achievement. rewrite Hrange. repeat split. }
  destruct (Hframe nows d) as (-> & -> & ->).
  repeat split.
  - now apply increment_repeatedly_raises.
  - unfold increment_achievement. now rewrite H.
Qed.

(** *** The conversation log and the session index *)






Lemma save_conversation_achievements (d : db) session user ai context model now :
  achievements (save_conversation d session user ai context model now)
  = increment_achievement_table
      (increment_achievement_table (achievements d) "chat_master" 100 now)
      "session_expert" 10 now.
Proof. reflexivity. Qed.



Lemma one_name_matches (names : list string) (x : string) :
  NoDup names -> In x names ->
  list_sum (List.map (fun n => if String.eqb x n then 1 else 0)%nat names) = 1%nat.
Proof.
  induction names as [|n names IH]; intros Hnd Hin; [destruct Hin|].
  apply NoDup_cons in Hnd as [Hn Hnd]. simpl.
  destruct (String.eqb_spec x n) as [->|Hne].
  - assert (Hzero : forall l, ~ In n l ->
              list_sum (List.map (fun m => if String.eqb n m then 1 else 0)%nat l) = 0%nat).
    { clear. induction l as [|m l IHl]; intros Hm; [reflexivity|].
      simpl. destruct (String.eqb_spec n m) as [->|_].
      - exfalso. apply Hm. now left.
      - apply IHl. intros H. apply Hm. now right. }
    rewrite Hzero; [reflexivity|]. intros H. apply Hn. now apply list_elem_of_In.
  - destruct Hin as [<-|Hin]; [congruence|]. now rewrite IH.
Qed.

Lemma counts_partition (names : list string) (rows : list conversation_row) :
  NoDup names ->
  (forall r, In r rows -> In (c_session_name r) names) ->
  list_sum (List.map (fun n => length (List.filter (in_session n) rows)) names)
  = length rows.
Proof.
  intros Hnd. induction rows as [|r rows IH]; intros Hcover.
  - simpl. clear. induction names as [|n names IHn]; [reflexivity|exact IHn].
  - assert (Hsplit : forall l,
      list_sum (List.map (fun n => length (List.filter (in_session n) (r :: rows))) l)
      = (list_sum (List.map (fun n => if String.eqb (c_session_name r) n then 1 else 0)%nat l)
         + list_sum (List.map (fun n => length (List.filter (in_session n) rows)) l))%nat).
    { clear. induction l as [|n l IHl]; [reflexivity|].
      cbn [List.map]. unfold list_sum in *. cbn [fold_right]. rewrite IHl.
      cbn [List.filter]. unfold in_session at 1.
      destruct (String.eqb (c_session_name r) n); simpl; lia. }
    rewrite Hsplit, IH, one_name_matches; [reflexivity|exact Hnd| |].
    + apply Hcover. now left.
    + intros r' Hr'. apply Hcover. now right.
Qed.

#[local] Instance recently_used_first_total : Total recently_used_first.
Proof. intros a b. unfold recently_used_first. lia. Qed.

#[local] Instance recently_used_first_trans : Transitive recently_used_first.
Proof. intros a b c. unfold recently_used_first. lia. Qed.

(** X5. [get_sessions] lists every session once, most recently used
    first, each with the fields of its row and the number of its
    conversations; when every conversation belongs to a listed session
    (which [save_conversation] ensures) the counts add up to the number
    of conversations in the log. *)
Theorem get_sessions_counts (d : db) :
  sessions_cover d ->
  let infos := get_sessions d in
  Permutation (List.map i_name infos) (List.map fst (map_to_list (sessions d)))
  /\ NoDup (List.map i_name infos)
  /\ StronglySorted (fun a b => i_last_used b <= i_last_used a) infos
  /\ (forall info, In info infos ->
        (exists row, sessions d !! i_name info = Some row
                     /\ s_created_at row = i_created_at info
                     /\ s_last_used row = i_last_used info
                     /\ s_description row = i_description info)
        /\ i_message_count info
           = length (List.filter (in_session (i_name info)) (conversations d)))
  /\ list_sum (List.map i_message_count infos) = length (conversations d).
Proof.
  intros Hcover. cbv zeta. unfold get_sessions.
  set (sorted := merge_sort recently_used_first (map_to_list (sessions d))).
  assert (Hperm : Permutation sorted (map_to_list (sessions d)))
    by apply merge_sort_Permutation.
  assert (Hnames : Permutation (List.map fst sorted) (List.map fst (map_to_list (sessions d))))
    by (now apply Permutation_map).
  assert (Hnd : NoDup (List.map fst sorted)).
  { rewrite Hnames. apply NoDup_fst_map_to_list. }
  rewrite !List.map_map. cbn [i_name i_message_count].
  split; [exact Hnames|]. split; [exact Hnd|]. split; [|split].
  - apply (StronglySorted_fmap _ recently_used_first).
    + intros x y Hxy. exact Hxy.
    + apply StronglySorted_merge_sort; apply _.
  - intros info Hin. apply in_map_iff in Hin as ([n row] & <- & Hin).
    cbn [i_name i_created_at i_last_used i_description i_message_count fst snd].
    assert (Hrow : sessions d !! n = Some row).
    { apply elem_of_map_to_list. apply list_elem_of_In.
      now apply (Permutation_in _ Hperm). }
    split; [|reflexivity]. exists row. repeat split. exact Hrow.
  - rewrite <- (List.map_map fst (fun n => length (List.filter (in_session n) (conversations d)))).
    apply counts_partition; [exact Hnd|].
    intros r Hr. destruct (Hcover r Hr) as [row Hrow].
    apply (Permutation_in _ (Permutation_sym Hnames)).
    apply in_map_iff. exists (c_session_name r, row). split; [reflexivity|].
    apply list_elem_of_In. now apply elem_of_map_to_list.
Qed.

(** *** Search *)


Lemma lower_char_eq (c d : ascii) :
  Ascii.eqb (Text.lower_char c) (Text.lower_char d) = true
  <-> Text.lower (String c "") = Text.lower (String d "").
Proof.
  rewrite Ascii.eqb_eq. simpl. split; [now intros ->|intros H; now injection H].
Qed.












(** *** The achievement list *)

Lemma precedes_spec (a b : string * achievement_row) :
  precedes a b = true
  <-> (a_unlocked (snd a) = true /\ a_unlocked (snd b) = false)
      \/ (a_unlocked (snd a) = a_unlocked (snd b)
          /\ a_progress (snd b) <= a_progress (snd a)).
Proof.
  unfold precedes.
  destruct (a_unlocked (snd a)), (a_unlocked (snd b)); simpl;
    rewrite ?Z.leb_le; split;
    try (intros [[H1 H2]|[H1 H2]]; congruence);
    try (intros H; right; split; [reflexivity|exact H]);
    try (intros H; left; split; reflexivity);
    try discriminate.
Qed.

#[local] Instance unlocked_then_progress_total : Total unlocked_then_progress.
Proof.
  intros a b. unfold unlocked_then_progress, precedes.
  destruct (a_unlocked (snd a)), (a_unlocked (snd b)); simpl;
    rewrite ?Z.leb_le; try lia; auto.
Qed.

#[local] Instance unlocked_then_progress_trans : Transitive unlocked_then_progress.
Proof.
  intros a b c. unfold unlocked_then_progress, precedes.
  destruct (a_unlocked (snd a)), (a_unlocked (snd b)), (a_unlocked (snd c)); simpl;
    rewrite ?Z.leb_le; try lia; auto; discriminate.
Qed.

(** X8. [get_achievements] lists every achievement of the table once,
    with the fields of its row, unlocked ones before locked ones and,
    within each group, by decreasing progress. *)
Theorem get_achievements_sorted (d : db) :
  let result := get_achievements d in
  Permutation (List.map Achievement.name result)
              (List.map fst (map_to_list (achievements d)))
  /\ NoDup (List.map Achievement.name result)
  /\ (forall a, In a result ->
        exists row, achievements d !! Achievement.name a = Some row
                    /\ Achievement.description a = a_description row
                    /\ Achievement.unlocked a = a_unlocked row
                    /\ Achievement.progress a = a_progress row
                    /\ Achievement.target a = a_target row)
  /\ StronglySorted unlocked_first result.
Proof.
  cbv zeta. unfold get_achievements.
  set (sorted := merge_sort unlocked_then_progress (map_to_list (achievements d))).
  assert (Hperm : Permutation sorted (map_to_list (achievements d)))
    by apply merge_sort_Permutation.
  assert (Hnames : Permutation (List.map fst sorted)
                     (List.map fst (map_to_list (achievements d))))
    by (now apply Permutation_map).
  rewrite List.map_map. cbn [Achievement.name to_Achievement].
  split; [exact Hnames|]. split; [|split].
  - rewrite Hnames. apply NoDup_fst_map_to_list.
  - intros a Ha. apply in_map_iff in Ha as ([n row] & <- & Hin).
    exists row. repeat split.
    apply elem_of_map_to_list, list_elem_of_In. now apply (Permutation_in _ Hperm).
  - apply (StronglySorted_fmap to_Achievement unlocked_then_progress unlocked_first).
    + intros x y Hxy. apply precedes_spec in Hxy. exact Hxy.
    + apply StronglySorted_merge_sort; apply _.
Qed.

(** *** Requests that cannot be served *)

(** X9. An analysis request returns [None] exactly when the path is
    missing or cannot be read (in which case [get_file_hash] is the empty
    string), and then the store, the files and the count of extractor
    runs are left as they were. *)
Theorem request_unavailable_iff_unreadable (w : world) (path : string) (now : Z) :
  (fst (analyze_file_with_progress w path now) = Returns None
   <-> readable (files w) path = false)
  /\ (get_file_hash (files w) path = "" <-> readable (files w) path = false)
  /\ (readable (files w) path = false ->
      analyze_file_with_progress w path now = (Returns None, w)).
Proof.
  unfold analyze_file_with_progress, readable, path_exists, get_file_hash, read_bytes.
  destruct (files w !! path) as [[data|err]|] eqn:E; simpl.
  - pose proof (hexdigest_not_empty data) as Hh. rewrite Hh.
    assert (Hne : MD5.hexdigest data <> "").
    { intros H. rewrite H in Hh. discriminate Hh. }
    split; [|split].
    + destruct (extract (files w) path);
        (destruct (select_cached _ _ _) as [text|]; [destruct (json_loads text)|]);
        simpl; split; discriminate.
    + split; [intros H; now apply Hne in H|discriminate].
    + discriminate.
  - repeat split.
  - repeat split.
Qed.

(** *** The cache over a batch of requests *)














(** *** Writes to the cache table *)

Lemma rows_of_path_at_most_one (p : string) (rows : list code_analysis_row) :
  NoDup (List.map r_file_path rows) ->
  (length (List.filter (fun r => String.eqb (r_file_path r) p) rows) <= 1)%nat.
Proof.
  induction rows as [|r rows IH]; intros Hnd; [simpl; lia|].
  apply NoDup_cons in Hnd as [Hr Hnd]. cbn [List.filter List.map] in *.
  destruct (String.eqb_spec (r_file_path r) p) as [Hp|Hp]; [|now apply IH].
  cbn [length].
  replace (List.filter (fun r0 => String.eqb (r_file_path r0) p) rows)
    with (@nil code_analysis_row); [simpl; lia|].
  symmetry. clear IH. induction rows as [|r' rows IH]; [reflexivity|].
  cbn [List.filter List.map] in *. apply NoDup_cons in Hnd as [_ Hnd].
  destruct (String.eqb_spec (r_file_path r') p) as [Hp'|_].
  - exfalso. apply Hr. rewrite Hp, <- Hp'. apply list_elem_of_In. now left.
  - apply IH; [|exact Hnd]. intros H. apply Hr.
    apply list_elem_of_In. right. now apply list_elem_of_In.
Qed.

Lemma filter_split_length (p : string) (rows : list code_analysis_row) :
  length rows
  = (length (List.filter (fun r => String.eqb (r_file_path r) p) rows)
     + length (List.filter (fun r => negb (String.eqb (r_file_path r) p)) rows))%nat.
Proof.
  induction rows as [|r rows IH]; [reflexivity|].
  cbn [List.filter]. destruct (String.eqb (r_file_path r) p); cbn [negb length]; lia.
Qed.

Lemma filter_others_idempotent (p : string) (rows : list code_analysis_row) :
  List.filter (fun r => negb (String.eqb (r_file_path r) p))
    (List.filter (fun r => negb (String.eqb (r_file_path r) p)) rows)
  = List.filter (fun r => negb (String.eqb (r_file_path r) p)) rows.
Proof.
  induction rows as [|r rows IH]; [reflexivity|].
  cbn [List.filter]. destruct (negb (String.eqb (r_file_path r) p)) eqn:E; [|exact IH].
  cbn [List.filter]. now rewrite E, IH.
Qed.

(** X11. A write to the cache keeps the table well formed (one row per
    path, distinct ids) and touches only the rows of its own path: the
    rows of the other paths stay as they were and in the same order, the
    table never shrinks and grows by one row exactly when the path had
    none, and the written row gets an id greater than every id in the
    table, also when it replaces a row. *)
Theorem store_touches_only_its_path (d : db) (path hash : string) (a : CodeAnalysis) (now : Z) :
  table_wf d ->
  let d' := store d path hash a now in
  table_wf d'
  /\ List.filter (fun r => negb (String.eqb (r_file_path r) path)) (code_analysis d')
     = List.filter (fun r => negb (String.eqb (r_file_path r) path)) (code_analysis d)
  /\ (length (code_analysis d) <= length (code_analysis d') <= S (length (code_analysis d)))%nat
  /\ (length (code_analysis d') = S (length (code_analysis d)) <-> rows_for path d = [])
  /\ (exists row, rows_for path d' = [row]
                  /\ forall r, In r (code_analysis d) -> r_id r < r_id row).
Proof.
  intros (Hu & Hb & Hn). cbv zeta.
  pose proof (rows_of_path_at_most_one path _ Hu) as Hone.
  pose proof (filter_split_length path (code_analysis d)) as Hlen.
  split; [|split; [|split; [|split]]].
  - split; [now apply store_unique|]. split.
    + intros r Hr. cbn [store code_analysis code_analysis_seq] in *.
      apply in_app_or in Hr as [Hr|[<-|[]]].
      * apply filter_In in Hr as [Hr _]. specialize (Hb r Hr). lia.
      * cbn [r_id]. lia.
    + cbn [store code_analysis]. rewrite List.map_app. cbn [List.map r_id].
      apply NoDup_app. split; [|split].
      * clear -Hn. induction (code_analysis d) as [|r rows IH]; [constructor|].
        cbn [List.map List.filter] in *. apply NoDup_cons in Hn as [Hr Hn].
        destruct (negb _); [|now apply IH]. cbn [List.map]. apply NoDup_cons.
        split; [|now apply IH]. intros H. apply Hr.
        apply list_elem_of_In in H. apply list_elem_of_In.
        apply in_map_iff in H as (x & Hx & Hin). apply filter_In in Hin as [Hin _].
        apply in_map_iff. eauto.
      * intros x Hx Hx'. apply list_elem_of_singleton in Hx'. subst x.
        apply list_elem_of_In, in_map_iff in Hx as (r & Hr & Hin).
        apply filter_In in Hin as [Hin _]. specialize (Hb r Hin). lia.
      * apply NoDup_singleton.
  - cbn [store code_analysis]. rewrite List.filter_app, filter_others_idempotent.
    cbn [List.filter r_file_path]. rewrite String.eqb_refl. cbn [negb]. apply app_nil_r.
  - cbn [store code_analysis]. rewrite length_app. cbn [length]. lia.
  - cbn [store code_analysis]. rewrite length_app. cbn [length]. unfold rows_for.
    destruct (List.filter (fun r => String.eqb (r_file_path r) path) (code_analysis d));
      cbn [length] in *; split; try discriminate; try reflexivity; lia.
  - destruct (rows_for_store_same d path hash a now) as (row & Hrows & _).
    exists row. split; [exact Hrows|]. intros r Hr.
    assert (Hid : r_id row = code_analysis_seq d + 1).
    { unfold rows_for in Hrows. cbn [store code_analysis] in Hrows.
      rewrite List.filter_app, filter_path_of_others in Hrows.
      cbn [List.filter r_file_path app] in Hrows. rewrite String.eqb_refl in Hrows.
      now injection Hrows as <-. }
    specialize (Hb r Hr). lia.
Qed.

(** *** Reading back what was saved *)











(** *** The prompt *)







(** *** Model routing *)

Lemma any_word_in_spec (words : list string) (text : string) :
  Forall (fun word => Text.lower word = word) words ->
  any_word_in words (Text.lower text) = true <-> some_word_occurs words text.
Proof.
  intros Hlower. unfold any_word_in, some_word_occurs. rewrite existsb_exists.
  rewrite Forall_forall in Hlower.
  split; intros (word & Hin & H); exists word; (split; [exact Hin|]).
  - apply contains_lower_spec; [|exact H]. now apply Hlower, list_elem_of_In.
  - apply contains_lower_spec; [|exact H]. now apply Hlower, list_elem_of_In.
Qed.

(** X14. [auto_select_model] answers "codellama" exactly when one of the
    code words occurs in the input (as a substring, whatever the case of
    its letters), whatever else the input holds; "llama2" exactly when no
    code word and no math word occurs and a creative word does; and
    "mistral" in every other case, so that a math word gives the same
    model as no word at all.  No other model is ever selected. *)
Theorem auto_select_model_routes (user_input : string) :
  let code := some_word_occurs code_words user_input in
  let math := some_word_occurs math_words user_input in
  let creative := some_word_occurs creative_words user_input in
  (auto_select_model user_input = "codellama" <-> code)
  /\ (auto_select_model user_input = "llama2" <-> ~ code /\ ~ math /\ creative)
  /\ (auto_select_model user_input = "mistral" <-> ~ code /\ (math \/ ~ creative))
  /\ In (auto_select_model user_input) ["codellama"; "mistral"; "llama2"].
Proof.
  cbv zeta.
  assert (Hc : Forall (fun word => Text.lower word = word) code_words)
    by (repeat constructor).
  assert (Hm : Forall (fun word => Text.lower word = word) math_words)
    by (repeat constructor).
  assert (Hw : Forall (fun word => Text.lower word = word) creative_words)
    by (repeat constructor).
  pose proof (any_word_in_spec code_words user_input Hc) as Ec.
  pose proof (any_word_in_spec math_words user_input Hm) as Em.
  pose proof (any_word_in_spec creative_words user_input Hw) as Ew.
  unfold auto_select_model. cbv zeta.
  change (dict_get MODEL_ROUTING "code_analysis" "codellama") with "codellama".
  change (dict_get MODEL_ROUTING "math_problems" "mistral") with "mistral".
  change (dict_get MODEL_ROUTING "creative_writing" "llama2") with "llama2".
  change (dict_get MODEL_ROUTING "general_chat" "mistral") with "mistral".
  destruct (any_word_in code_words (Text.lower user_input)).
  { assert (Hcode : some_word_occurs code_words user_input) by now apply Ec.
    split; [split; [intros _; exact Hcode|reflexivity]|].
    split; [split; [discriminate|intros [H _]; now destruct H]|].
    split; [split; [discriminate|intros [H _]; now destruct H]|].
    now left. }
  assert (Hcode : ~ some_word_occurs code_words user_input).
  { intros H. apply Ec in H. discriminate. }
  destruct (any_word_in math_words (Text.lower user_input)).
  { assert (Hmath : some_word_occurs math_words user_input) by now apply Em.
    split; [split; [discriminate|intros H; now destruct Hcode]|].
    split; [split; [discriminate|intros (_ & H & _); now destruct H]|].
    split; [split; [intros _; split; [exact Hcode|now left]|reflexivity]|].
    right. now left. }
  assert (Hmath : ~ some_word_occurs math_words user_input).
  { intros H. apply Em in H. discriminate. }
  destruct (any_word_in creative_words (Text.lower user_input)).
  { assert (Hcre : some_word_occurs creative_words user_input) by now apply Ew.
    split; [split; [discriminate|intros H; now destruct Hcode]|].
    split; [split; [intros _; now repeat split|reflexivity]|].
    split; [split; [discriminate|intros (_ & [H|H]); [now destruct Hmath|now destruct H]]|].
    right. right. now left. }
  assert (Hcre : ~ some_word_occurs creative_words user_input).
  { intros H. apply Ew in H. discriminate. }
  split; [split; [discriminate|intros H; now destruct Hcode]|].
  split; [split; [discriminate|intros (_ & _ & H); now destruct Hcre]|].
  split; [split; [intros _; split; [exact Hcode|now right]|reflexivity]|].
  right. now left.
Qed.

(** *** Nested function definitions *)

Lemma ast_forall_ind (P : Ast.ast -> Prop) :
  (forall c cs, Forall P cs -> P (Ast.Node c cs)) -> forall t, P t.
Proof.
  intros H. fix IH 1. intros [c cs]. apply H.
  induction cs as [|x cs IHcs]; constructor; [apply IH|exact IHcs].
Qed.

Lemma filter_flat_map_length (f : Ast.ast -> bool) (cs : list Ast.ast) :
  length (List.filter f (flat_map Ast.subtrees cs))
  = list_sum (List.map (fun c => length (List.filter f (Ast.subtrees c))) cs).
Proof.
  induction cs as [|c cs IH]; [reflexivity|].
  cbn [flat_map List.map]. rewrite List.filter_app, length_app, IH.
  unfold list_sum. reflexivity.
Qed.

Lemma decision_points_node (c : Ast.node_class) (cs : list Ast.ast) :
  decision_points (Ast.Node c cs)
  = ((if is_decision (Ast.Node c cs) then 1 else 0)
     + list_sum (List.map decision_points cs))%nat.
Proof.
  unfold decision_points. cbn [Ast.subtrees List.filter].
  destruct (is_decision (Ast.Node c cs)); cbn [length];
    now rewrite filter_flat_map_length.
Qed.

Lemma total_decision_points_forest (cs : list Ast.ast) :
  list_sum (List.map decision_points
              (List.filter is_function_def (flat_map Ast.subtrees cs)))
  = list_sum (List.map total_decision_points cs).
Proof.
  induction cs as [|c cs IH]; [reflexivity|].
  cbn [flat_map List.map]. rewrite List.filter_app, List.map_app, list_sum_app, IH.
  unfold total_decision_points, function_nodes, list_sum. reflexivity.
Qed.

Lemma total_decision_points_node (c : Ast.node_class) (cs : list Ast.ast) :
  total_decision_points (Ast.Node c cs)
  = ((if is_function_def (Ast.Node c cs) then decision_points (Ast.Node c cs) else 0)
     + list_sum (List.map total_decision_points cs))%nat.
Proof.
  unfold total_decision_points at 1, function_nodes. cbn [Ast.subtrees List.filter].
  destruct (is_function_def (Ast.Node c cs)); cbn [List.map];
    rewrite <- total_decision_points_forest; unfold list_sum; reflexivity.
Qed.

Lemma sum_linear (k : nat) (w f g : Ast.ast -> nat) (cs : list Ast.ast) :
  Forall (fun c => w c = (k * f c + g c)%nat) cs ->
  list_sum (List.map w cs)
  = (k * list_sum (List.map f cs) + list_sum (List.map g cs))%nat.
Proof.
  induction 1 as [|c cs Hc _ IH]; [cbn; lia|].
  cbn [List.map]. unfold list_sum in *. cbn [fold_right]. rewrite Hc, IH. lia.
Qed.

Lemma weighted_decisions_linear (t : Ast.ast) :
  forall k,
    weighted_decisions k t = (k * decision_points t + total_decision_points t)%nat.
Proof.
  induction t as [c cs IH] using ast_forall_ind. intros k.
  cbn [weighted_decisions].
  rewrite total_decision_points_node, decision_points_node.
  assert (Hsum : forall k',
            list_sum (List.map (weighted_decisions k') cs)
            = (k' * list_sum (List.map decision_points cs)
               + list_sum (List.map total_decision_points cs))%nat).
  { intros k'. apply sum_linear. rewrite Forall_forall in *.
    intros a Ha. now apply IH. }
  rewrite Hsum. unfold is_decision, is_function_def. cbn [Ast.cls_of].
  destruct c; lia.
Qed.

(** X15. The complexity counter of the structured path counts every
    decision point once for each function definition that encloses it:
    a decision point outside every function counts for nothing, and one
    inside a function nested in another counts twice.  In particular,
    putting a body under one more function definition adds the number of
    decision points of the body to the counter. *)
Theorem complexity_counts_enclosing_functions (tree : Ast.ast) :
  w_complexity (walk_tree tree) = weighted_decisions 0 tree
  /\ (forall k, weighted_decisions k tree
                = (k * decision_points tree + weighted_decisions 0 tree)%nat)
  /\ (forall name,
        w_complexity (walk_tree (Ast.Node (Ast.FunctionDef name) [tree]))
        = (decision_points tree + w_complexity (walk_tree tree))%nat).
Proof.
  assert (H0 : forall t, w_complexity (walk_tree t) = weighted_decisions 0 t).
  { intros t. destruct (walk_tree_counts t) as [-> _].
    rewrite weighted_decisions_linear. lia. }
  split; [apply H0|]. split.
  - intros k. rewrite !weighted_decisions_linear. lia.
  - intros name. rewrite !H0. cbn [weighted_decisions List.map].
    unfold is_decision, is_function_def. cbn [Ast.cls_of].
    unfold list_sum. cbn [fold_right].
    rewrite (weighted_decisions_linear tree 1), (weighted_decisions_linear tree 0). lia.
Qed.

(** *** The security scan *)








(** *** Row counts *)


(** *** Line counts *)

Lemma filter_length_le {A : Type} (f : A -> bool) (l : list A) :
  (length (List.filter f l) <= length l)%nat.
Proof.
  induction l as [|x l IH]; [reflexivity|].
  cbn [List.filter]. destruct (f x); cbn [length]; lia.
Qed.

Lemma filter_and_length_le {A : Type} (f g : A -> bool) (l : list A) :
  (length (List.filter (fun x => f x && g x) l) <= length (List.filter f l))%nat.
Proof.
  induction l as [|x l IH]; [reflexivity|].
  cbn [List.filter]. destruct (f x), (g x); cbn [andb length]; lia.
Qed.

(** X18. The line count that an analysis reports never exceeds the
    number of lines of the file: the pattern path leaves out the blank
    lines, the structured path also the lines that start with "#" (so it
    never reports more than the pattern path would on the same file),
    and a Python file on which [ast.parse] raises [SyntaxError] is
    reported with all its lines.  A Python file on which [ast.parse]
    raises another exception is not reported at all: the exception
    leaves the analyzer; every other file that can be read gets an
    analysis. *)
Theorem line_count_is_bounded fs (path content : string) :
  read_text fs path = inr content ->
  let total := length (Text.splitlines content) in
  (forall a, extract fs path = Returns a -> (lines_of_code a <= total)%nat)
  /\ (forall lang tree,
        ast_parse content = Parsed tree ->
        exists a,
          analyze_python_file fs path = Returns a
          /\ (lines_of_code a <= lines_of_code (analyze_generic_file fs path lang))%nat)
  /\ (forall msg, ast_parse content = SyntaxError msg ->
        exists a, analyze_python_file fs path = Returns a /\ lines_of_code a = total)
  /\ (forall e, ast_parse content = Raised e ->
        analyze_python_file fs path = Raises e
        /\ (classify path = "python" -> extract fs path = Raises e))
  /\ (classify path <> "python" \/ (forall e, ast_parse content <> Raised e) ->
      exists a, extract fs path = Returns a).
Proof.
  intros Hread. cbv zeta.
  assert (Hgen : forall lang,
            lines_of_code (analyze_generic_file fs path lang)
            = length (List.filter Text.strip_nonempty (Text.splitlines content))).
  { intros lang. unfold analyze_generic_file. rewrite Hread.
    destruct (String.eqb lang "javascript"); [reflexivity|].
    destruct (String.eqb lang "php"); reflexivity. }
  assert (Hpy : match ast_parse content with
                | Parsed _ =>
                    exists a, analyze_python_file fs path = Returns a
                              /\ lines_of_code a = python_loc content
                | SyntaxError _ =>
                    exists a, analyze_python_file fs path = Returns a
                              /\ lines_of_code a = length (Text.splitlines content)
                | Raised e => analyze_python_file fs path = Raises e
                end).
  { unfold analyze_python_file. rewrite Hread.
    destruct (ast_parse content); [| |reflexivity]; eexists; split; reflexivity. }
  assert (Hloc : (python_loc content
                  <= length (List.filter Text.strip_nonempty (Text.splitlines content)))%nat).
  { unfold python_loc.
    apply (filter_and_length_le Text.strip_nonempty
             (fun line => negb (Text.strip_startswith "#" line))). }
  pose proof (filter_length_le Text.strip_nonempty (Text.splitlines content)) as Hle.
  split; [|split; [|split; [|split]]].
  - intros a. unfold extract. destruct (String.eqb (classify path) "python").
    + intros Ha. rewrite Ha in Hpy.
      destruct (ast_parse content); [| |discriminate Hpy];
        destruct Hpy as (a' & Ha' & Hl); injection Ha' as <-; lia.
    + intros Ha. injection Ha as <-. rewrite Hgen. exact Hle.
  - intros lang tree Hparse. rewrite Hparse in Hpy. destruct Hpy as (a & Ha & Hl).
    exists a. split; [exact Ha|]. rewrite Hgen. lia.
  - intros msg He. rewrite He in Hpy. exact Hpy.
  - intros e He. rewrite He in Hpy. split; [exact Hpy|].
    intros Epy. unfold extract. now rewrite Epy.
  - intros Hcase. unfold extract.
    destruct (String.eqb_spec (classify path) "python") as [Epy|Epy].
    + destruct Hcase as [Hcase|Hcase]; [contradiction|].
      destruct (ast_parse content) as [tree|msg|e].
      * destruct Hpy as (a & Ha & _). now exists a.
      * destruct Hpy as (a & Ha & _). now exists a.
      * now contradiction (Hcase e).
    + eexists. reflexivity.
Qed.

(** *** Analysis achievements *)

Lemma counter_step (t : gmap string achievement_row) name target now (n : nat) :
  1 <= target ->
  counter_agrees t name target n ->
  counter_agrees (increment_achievement_table t name target now) name target (S n).
Proof.
  intros Htarget. unfold counter_agrees. rewrite increment_lookup. unfold next_row.
  destruct (t !! name) as [r|].
  - intros (Hn & Hp & Ht & Hu). destruct (a_unlocked r) eqn:Eu.
    + symmetry in Hu. apply Z.leb_le in Hu.
      split; [lia|]. split; [lia|]. split; [exact Ht|].
      rewrite Eu. symmetry. apply Z.leb_le. lia.
    + symmetry in Hu. apply Z.leb_gt in Hu. cbn [a_progress a_target a_unlocked].
      split; [lia|]. split; [lia|]. split; [exact Ht|].
      rewrite Ht. f_equal. lia.
  - intros ->. cbn [fresh_achievement a_unlocked a_progress a_target].
    split; [lia|]. split; [lia|]. split; [reflexivity|]. reflexivity.
Qed.

Lemma counter_other (t : gmap string achievement_row) name target now other goal (n : nat) :
  other <> name ->
  counter_agrees t other goal n ->
  counter_agrees (increment_achievement_table t name target now) other goal n.
Proof.
  intros Hne. unfold counter_agrees. now rewrite increment_other_rows.
Qed.

Lemma analysis_achievements (d : db) (now : Z) :
  achievements (update_achievements d "code_analysis" now)
  = increment_achievement_table
      (increment_achievement_table (achievements d) "code_analyzer" 50 now)
      "quality_guru" 25 now.
Proof. reflexivity. Qed.

Lemma request_keeps_counters (w : world) (path : string) (now : Z) :
  analysis_counters_agree w ->
  analysis_counters_agree (snd (analyze_file_with_progress w path now)).
Proof.
  intros Hw.
  assert (Hmiss : forall a,
            analysis_counters_agree
              (after_miss w path (get_file_hash (files w) path) a now)).
  { intros a. destruct Hw as [H1 H2]. unfold analysis_counters_agree, after_miss.
    cbn [database extractions]. rewrite analysis_achievements.
    cbn [store achievements]. split.
    - apply counter_other; [discriminate|]. apply counter_step; [lia|exact H1].
    - apply counter_step; [lia|]. apply counter_other; [discriminate|exact H2]. }
  unfold analyze_file_with_progress.
  destruct (negb (path_exists (files w) path)); [exact Hw|].
  destruct (String.eqb (get_file_hash (files w) path) ""); [exact Hw|].
  destruct (extract (files w) path) as [a|e].
  - destruct (select_cached _ _ _) as [text|];
      [destruct (json_loads text); [exact Hw|]|]; exact (Hmiss a).
  - destruct (select_cached _ _ _) as [text|];
      [destruct (json_loads text)|]; exact Hw.
Qed.

(** X19. Only runs of the extractor earn progress on the analysis
    achievements: whatever is requested, and whatever conversations are
    saved in between, "code_analyzer" has progress min(n, 50) and
    "quality_guru" progress min(n, 25) for the number n of extractor
    runs so far, each unlocked exactly when n has reached its target and
    absent while n = 0; a request served from the cache earns nothing. *)
Theorem analysis_achievements_count_extractions (w : world) :
  analysis_counters_agree w ->
  (forall path now,
     analysis_counters_agree (snd (analyze_file_with_progress w path now)))
  /\ (forall requests, analysis_counters_agree (snd (analyze_files w requests)))
  /\ (forall session user ai context model now,
        analysis_counters_agree (after_save w session user ai context model now))
  /\ (forall path now text cached,
        select_cached (code_analysis (database w)) path (get_file_hash (files w) path)
        = Some text ->
        get_file_hash (files w) path <> "" ->
        path_exists (files w) path = true ->
        json_loads text = Some cached ->
        achievements (database (snd (analyze_file_with_progress w path now)))
        = achievements (database w)).
Proof.
  intros Hw. split; [|split; [|split]].
  - intros path now. now apply request_keeps_counters.
  - intros requests. revert w Hw.
    induction requests as [|[path now] rest IH]; intros w Hw; [exact Hw|].
    cbn [analyze_files].
    pose proof (request_keeps_counters w path now Hw) as Hstep.
    destruct (analyze_file_with_progress w path now) as [[analysis|e] w1];
      cbn [snd] in Hstep; [|exact Hstep].
    specialize (IH w1 Hstep).
    destruct (analyze_files w1 rest) as [[analyses|e] w2]; exact IH.
  - intros session user ai context model now. destruct Hw as [H1 H2].
    unfold analysis_counters_agree, after_save. cbn [database extractions].
    rewrite save_conversation_achievements.
    split; (apply counter_other; [discriminate|]; apply counter_other; [discriminate|]);
      assumption.
  - intros path now text cached Hsel Hhash Hexists Hload.
    unfold analyze_file_with_progress. rewrite Hexists. cbn [negb].
    destruct (String.eqb_spec (get_file_hash (files w) path) ""); [contradiction|].
    now rewrite Hsel, Hload.
Qed.

End Sarek.

(* ===================================================================== *)
(** ** The statements at the sample inputs *)
(* ===================================================================== *)




(** The print warning on the sample source, which calls [print] and
    never mentions "debug". *)
Lemma print_check_sample :
  read_text Sample.files "calc.py" = inr Sample.calc_source
  /\ Sample.parse Sample.calc_source = Parsed Sample.tree
  /\ exists a,
       analyze_python_file Sample.parse Sample.search Sample.files "calc.py" = Returns a
       /\ In issue_print (issues a).
Proof.
  assert (H1 : read_text Sample.files "calc.py" = inr Sample.calc_source)
    by (vm_compute; reflexivity).
  assert (H2 : Sample.parse Sample.calc_source = Parsed Sample.tree)
    by (vm_compute; reflexivity).
  split; [exact H1|]. split; [exact H2|].
  destruct (print_check_on_python_path Sample.parse Sample.search
              Sample.files "calc.py" Sample.calc_source Sample.tree H1 H2)
    as (a & Ha & Hprint & _).
  exists a. split; [exact Ha|]. apply Hprint. split.
  - apply contains_spec. vm_compute. reflexivity.
  - intros H. apply contains_spec in H. vm_compute in H. discriminate H.
Defined.

(** A fresh achievement with target 3: created with progress 0, then at
    progress 1 and still locked after the first increment. *)
Lemma increment_achievement_sample :
  int64 3 = true
  /\ (∅ : gmap string achievement_row) !! "code_analyzer" = None
  /\ insert_or_ignore_achievement ∅ "code_analyzer" 3 !! "code_analyzer"
     = Some (fresh_achievement "code_analyzer" 3)
  /\ exists r,
       achievements CodeAnalysis
         (snd (increment_achievement CodeAnalysis (init_db CodeAnalysis)
                 "code_analyzer" 3 7))
       !! "code_analyzer" = Some r
       /\ a_progress r = 1 /\ a_unlocked r = false.
Proof.
  assert (Hrange : int64 3 = true) by reflexivity.
  pose proof (increment_achievement_unlocks_once CodeAnalysis (init_db CodeAnalysis)
                "code_analyzer" 3 7 Hrange) as H.
  cbv zeta in H. destruct H as (_ & Hcreate & _ & _ & _ & Hstep & _).
  assert (H0 : (∅ : gmap string achievement_row) !! "code_analyzer" = None)
    by reflexivity.
  split; [exact Hrange|]. split; [exact H0|]. split; [exact (Hcreate H0)|].
  destruct (Hstep (fresh_achievement "code_analyzer" 3) (Hcreate H0) eq_refl)
    as (r & Hr & Hp & _ & _ & Hu & _).
  exists r. split; [exact Hr|]. split; [exact Hp|].
  destruct (a_unlocked r); [|reflexivity].
  exfalso. assert (Hle : 3 <= a_progress r) by (apply Hu; reflexivity).
  rewrite Hp in Hle. simpl in Hle. apply Hle. reflexivity.
Defined.

(** C3 as stated fails.  The unlock test reads the target stored in the
    row, not the target of the call: a row created with target 5 and
    incremented by a call with target 1 reaches progress 2, which is
    past the target of the call, and stays locked.  And a target
    outside the signed 64-bit range creates no row: the call raises. *)
Lemma stored_target_decides_unlock :
  let d1 := snd (increment_achievement CodeAnalysis (init_db CodeAnalysis) "a" 5 1) in
  let d2 := snd (increment_achievement CodeAnalysis d1 "a" 1 2) in
  (a_target <$> achievements CodeAnalysis d1 !! "a") = Some 5
  /\ (a_progress <$> achievements CodeAnalysis d1 !! "a") = Some 1
  /\ fst (increment_achievement CodeAnalysis d1 "a" 1 2) = Returns tt
  /\ (a_progress <$> achievements CodeAnalysis d2 !! "a") = Some 2
  /\ (a_target <$> achievements CodeAnalysis d2 !! "a") = Some 5
  /\ (a_unlocked <$> achievements CodeAnalysis d2 !! "a") = Some false
  /\ increment_achievement CodeAnalysis (init_db CodeAnalysis) "a" (2 ^ 63) 7
     = (Raises OverflowError, init_db CodeAnalysis).
Proof. cbv zeta. vm_compute. repeat split. Qed.





(** The achievement table of a fresh database is consistent, and stays so
    after a first conversation. *)
Lemma achievements_stay_consistent_sample :
  table_consistent (achievements CodeAnalysis (init_db CodeAnalysis))
  /\ table_consistent
       (achievements CodeAnalysis
          (save_conversation CodeAnalysis (init_db CodeAnalysis)
             "s" "q" "a" "" "mistral" 10)).
Proof.
  assert (H0 : table_consistent (achievements CodeAnalysis (init_db CodeAnalysis))).
  { intros name r H. cbn [init_db achievements] in H.
    rewrite lookup_empty in H. discriminate H. }
  split; [exact H0|].
  destruct (achievements_stay_consistent Sample.parse Sample.search Sample.findall
              CodeAnalysis (fun a => a) Some (init_db CodeAnalysis) H0)
    as (_ & _ & H & _).
  apply H.
Defined.

(** Three increments with target 2: progress 2, unlocked at the time of
    the second. *)
Lemma achievement_progress_saturates_sample :
  achievements CodeAnalysis (init_db CodeAnalysis) !! "code_analyzer" = None
  /\ 1 <= 2
  /\ 2 < 2 ^ 63
  /\ [5; 6; 7] <> []
  /\ exists r,
       achievements CodeAnalysis
         (increment_repeatedly CodeAnalysis (init_db CodeAnalysis)
            "code_analyzer" 2 [5; 6; 7])
       !! "code_analyzer" = Some r
       /\ a_progress r = 2 /\ a_unlocked r = true /\ a_unlocked_at r = Some 6.
Proof.
  assert (H1 : achievements CodeAnalysis (init_db CodeAnalysis) !! "code_analyzer" = None)
    by reflexivity.
  assert (H2 : 1 <= 2) by (intros H; discriminate H).
  assert (H3 : 2 < 2 ^ 63) by reflexivity.
  assert (H4 : [5; 6; 7] <> []) by discriminate.
  split; [exact H1|]. split; [exact H2|]. split; [exact H3|]. split; [exact H4|].
  eexists. split; [exact (proj1 (achievement_progress_saturates CodeAnalysis
                                   (init_db CodeAnalysis) "code_analyzer" 2
                                   [5; 6; 7] H1 H2 H3 H4))|].
  repeat split.
Defined.


(** The session list after one conversation. *)
Lemma get_sessions_counts_sample :
  let d := save_conversation CodeAnalysis (init_db CodeAnalysis)
             "s" "q" "a" "" "mistral" 10 in
  sessions_cover CodeAnalysis d
  /\ list_sum (List.map i_message_count (get_sessions CodeAnalysis d))
     = length (conversations CodeAnalysis d).
Proof.
  cbv zeta.
  assert (H1 : sessions_cover CodeAnalysis
                 (save_conversation CodeAnalysis (init_db CodeAnalysis)
                    "s" "q" "a" "" "mistral" 10)).
  { intros r [<-|[]]. vm_compute. eexists. reflexivity. }
  split; [exact H1|].
  pose proof (get_sessions_counts CodeAnalysis _ H1) as H. cbv zeta in H.
  destruct H as (_ & _ & _ & _ & H). exact H.
Defined.




(** A second write to a table of one row. *)
Lemma store_touches_only_its_path_sample :
  let a := error_analysis "b.py" "python" 0 "none" in
  let d := store CodeAnalysis (fun a => a) (init_db CodeAnalysis) "b.py" "h0" a 1 in
  table_wf CodeAnalysis d
  /\ table_wf CodeAnalysis (store CodeAnalysis (fun a => a) d "a.py" "h1" a 2).
Proof.
  cbv zeta.
  assert (H1 : table_wf CodeAnalysis
                 (store CodeAnalysis (fun a => a) (init_db CodeAnalysis) "b.py" "h0"
                    (error_analysis "b.py" "python" 0 "none") 1)).
  { split; [|split].
    - repeat constructor. intros H. apply elem_of_nil in H. exact H.
    - intros r [<-|[]]. intros H. discriminate H.
    - repeat constructor. intros H. apply elem_of_nil in H. exact H. }
  split; [exact H1|].
  pose proof (store_touches_only_its_path CodeAnalysis (fun a => a) _ "a.py" "h1"
                (error_analysis "b.py" "python" 0 "none") 2 H1) as H.
  cbv zeta in H. exact (proj1 H).
Defined.



(** The line count of the sample source. *)
Lemma line_count_is_bounded_sample :
  read_text Sample.files "calc.py" = inr Sample.calc_source
  /\ exists a,
       extract Sample.parse Sample.search Sample.findall Sample.files "calc.py"
       = Returns a
       /\ (lines_of_code a <= length (Text.splitlines Sample.calc_source))%nat.
Proof.
  assert (H1 : read_text Sample.files "calc.py" = inr Sample.calc_source)
    by (vm_compute; reflexivity).
  split; [exact H1|].
  pose proof (line_count_is_bounded Sample.parse Sample.search Sample.findall
                Sample.files "calc.py" Sample.calc_source H1) as H.
  cbv zeta in H. destruct H as (Hle & _ & _ & _ & Hret).
  assert (Hparse : forall e, Sample.parse Sample.calc_source <> Raised e).
  { intros e He. vm_compute in He. discriminate He. }
  destruct (Hret (or_intror Hparse)) as [a Ha].
  exists a. split; [exact Ha|exact (Hle a Ha)].
Defined.

(** The analysis achievements after a first request. *)
Lemma analysis_achievements_count_extractions_sample :
  let w0 := Build_world CodeAnalysis Sample.files (init_db CodeAnalysis) 0 in
  analysis_counters_agree CodeAnalysis w0
  /\ analysis_counters_agree CodeAnalysis
       (snd (analyze_file_with_progress Sample.parse Sample.search Sample.findall
               CodeAnalysis (fun a => a) Some w0 "notes.txt" 1)).
Proof.
  cbv zeta.
  assert (H1 : analysis_counters_agree CodeAnalysis
                 (Build_world CodeAnalysis Sample.files (init_db CodeAnalysis) 0)).
  { split; reflexivity. }
  split; [exact H1|].
  exact (proj1 (analysis_achievements_count_extractions Sample.parse Sample.search
                  Sample.findall CodeAnalysis (fun a => a) Some _ H1) "notes.txt" 1).
Defined.


(* ===================================================================== *)
(** ** Checks of the embedding against known values *)
(* ===================================================================== *)

(** The MD5 test suite of RFC 1321 (first, third and an 80-byte vector). *)
Example md5_test_vectors :
  MD5.hexdigest [] = "d41d8cd98f00b204e9800998ecf8427e"
  /\ MD5.hexdigest (Codec.encode "abc") = "900150983cd24fb0d6963f7d28e17f72"
  /\ MD5.hexdigest
       (Codec.encode ("1234567890123456789012345678901234567890"
                      ++ "1234567890123456789012345678901234567890"))
     = "57edf4a22be3c955ac49da2e2107b67a".
Proof. vm_compute. repeat split. Qed.

Example path_suffix_examples :
  path_suffix "src/app.PY" = ".PY" /\ classify "src/app.PY" = "python"
  /\ path_suffix "a/.bashrc" = "" /\ path_suffix "x." = ""
  /\ path_suffix "a.tar.gz" = ".gz" /\ path_suffix "dir.d/file" = ""
  /\ classify "a.tar.gz" = "unknown" /\ classify "view.jsx" = "javascript".
Proof. vm_compute. repeat split. Qed.

Example splitlines_examples :
  Text.splitlines ("a" ++ Text.newline ++ Text.newline ++ "b" ++ Text.newline) = ["a"; ""; "b"]
  /\ Text.splitlines "" = []
  /\ Text.count "aa" "aaaaa" = 2%nat
  /\ Text.lower "ToDo @[`{Z" = "todo @[`{z".
Proof. vm_compute. repeat split. Qed.
